(** * dicomlite: decoder, slice ordering, grouping and pixel transform

    A shallow embedding of [src/utils/dicomParser.ts] and of the rendering
    loop of [src/components/Viewport.tsx], with the properties the
    specification states about them.

    The pointer handlers and viewer controls of the viewport, the selection
    of [src/store/useAppStore.ts] with the slice navigation of
    [src/App.tsx], and the scan of [src/hooks/useDicomScanner.ts] follow,
    with further properties of the code (X1, X2, ...).

    Modelling conventions.
    - A JavaScript [number] is a value of [number]: NaN, the two infinities,
      or a finite value kept as an exact rational.  Arithmetic on finite
      values is exact: the rounding and the overflow of binary64 and the
      sign of zero are not represented.  The pixel transform is given a second time on
      binary64 values ([Binary64]) to evaluate its test vectors.
    - Code that can throw lives in the [completion] monad; [try]/[catch]
      is [tryCatch].
    - The third-party [dicom-parser] package is not part of the
      repository.  Its [DataSet] object is a record of what its accessors
      answer, and [parseDicom] is a parameter of [parseDicomFile].
    - [Map<string, _>] is a [gmap string _]. *)

From Stdlib Require Import ZArith QArith Qround Qabs Lia Lqa Bool.
From Stdlib Require Import String Ascii List Permutation Sorted.
From Stdlib Require OrderedTypeEx.
From Stdlib Require Import SpecFloat.
From Stdlib.Strings Require Import Byte.
From stdpp Require Import base option gmap strings list pretty.

Local Open Scope Z_scope.
Local Open Scope string_scope.

(** ** JavaScript numbers *)

Module Num.

Inductive number : Type :=
| NaN
| Inf (negative : bool)
| Fin (q : Q).

Definition ofZ (z : Z) : number := Fin (inject_Z z).

Definition isNaN (x : number) : bool :=
  match x with NaN => true | _ => false end.

Definition isFinite (x : number) : bool :=
  match x with Fin _ => true | _ => false end.

Definition qneg (q : Q) : bool :=
  match Qcompare q 0 with Lt => true | _ => false end.

Definition qzero (q : Q) : bool :=
  match Qcompare q 0 with Eq => true | _ => false end.

Definition add (x y : number) : number :=
  match x, y with
  | NaN, _ | _, NaN => NaN
  | Inf s, Inf t => if Bool.eqb s t then Inf s else NaN
  | Inf s, Fin _ => Inf s
  | Fin _, Inf t => Inf t
  | Fin p, Fin q => Fin (Qplus p q)
  end.

Definition sub (x y : number) : number :=
  match x, y with
  | NaN, _ | _, NaN => NaN
  | Inf s, Inf t => if Bool.eqb s t then NaN else Inf s
  | Inf s, Fin _ => Inf s
  | Fin _, Inf t => Inf (negb t)
  | Fin p, Fin q => Fin (Qminus p q)
  end.

Definition mul (x y : number) : number :=
  match x, y with
  | NaN, _ | _, NaN => NaN
  | Inf s, Inf t => Inf (xorb s t)
  | Inf s, Fin q | Fin q, Inf s =>
      if qzero q then NaN else Inf (xorb s (qneg q))
  | Fin p, Fin q => Fin (Qmult p q)
  end.

(** Division never throws: a zero divisor yields an infinity, or NaN for
    [0 / 0]. *)
Definition div (x y : number) : number :=
  match x, y with
  | NaN, _ | _, NaN => NaN
  | Inf _, Inf _ => NaN
  | Inf s, Fin q => Inf (xorb s (qneg q))
  | Fin _, Inf _ => Fin 0
  | Fin p, Fin q =>
      if qzero q then (if qzero p then NaN else Inf (qneg p))
      else Fin (Qdiv p q)
  end.

Definition abs (x : number) : number :=
  match x with
  | NaN => NaN
  | Inf _ => Inf false
  | Fin q => Fin (Qabs q)
  end.

(** The relational operators; every comparison with NaN is [false]. *)
Definition ltb (x y : number) : bool :=
  match x, y with
  | NaN, _ | _, NaN => false
  | Inf s, Inf t => s && negb t
  | Inf s, Fin _ => s
  | Fin _, Inf t => negb t
  | Fin p, Fin q => match Qcompare p q with Lt => true | _ => false end
  end.

Definition leb (x y : number) : bool :=
  match x, y with
  | NaN, _ | _, NaN => false
  | Inf s, Inf t => s || negb t
  | Inf s, Fin _ => s
  | Fin _, Inf t => negb t
  | Fin p, Fin q => match Qcompare p q with Gt => false | _ => true end
  end.

Definition gtb (x y : number) : bool := ltb y x.
Definition geb (x y : number) : bool := leb y x.

(** Strict equality [===] on numbers. *)
Definition eqb (x y : number) : bool :=
  match x, y with
  | Inf s, Inf t => Bool.eqb s t
  | Fin p, Fin q => Qeq_bool p q
  | _, _ => false
  end.

(** [Math.round]: the nearest integer, a tie going towards +Infinity. *)
Definition round (x : number) : number :=
  match x with
  | Fin q => Fin (inject_Z (Qfloor (Qplus q (1 # 2))))
  | _ => x
  end.

(** Conversion applied by a store into a [Uint8ClampedArray]: NaN becomes
    0, the value is clamped to [0, 255] and rounded to the nearest integer,
    a tie going to the even one. *)
Definition roundHalfEven (q : Q) : Z :=
  let f := Qfloor q in
  match Qcompare (Qminus q (inject_Z f)) (1 # 2) with
  | Lt => f
  | Gt => f + 1
  | Eq => if Z.even f then f else f + 1
  end.

Definition toUint8Clamp (x : number) : Z :=
  match x with
  | NaN => 0
  | Inf s => if s then 0 else 255
  | Fin q => Z.max 0 (Z.min 255 (roundHalfEven q))
  end.

End Num.

Export Num.

Declare Scope num_scope.
Delimit Scope num_scope with num.
Infix "+" := Num.add : num_scope.
Infix "-" := Num.sub : num_scope.
Infix "*" := Num.mul : num_scope.
Infix "/" := Num.div : num_scope.
Infix "<?" := Num.ltb : num_scope.
Infix "<=?" := Num.leb : num_scope.
Infix ">?" := Num.gtb : num_scope.
Infix ">=?" := Num.geb : num_scope.

(** ** Strings *)

(** Text read from a dataset is a string of 8-bit characters.  White space
    is what [String.prototype.trim] and [parseFloat] skip in that range. *)
Definition isWhiteSpace (c : ascii) : bool :=
  let n := N_of_ascii c in
  (N.leb 9 n && N.leb n 13) || N.eqb n 32 || N.eqb n 160.

Fixpoint trimStart (s : string) : string :=
  match s with
  | String c r => if isWhiteSpace c then trimStart r else s
  | EmptyString => s
  end.

Fixpoint trimEnd (s : string) : string :=
  match s with
  | String c r =>
      match trimEnd r with
      | EmptyString => if isWhiteSpace c then EmptyString else String c EmptyString
      | r' => String c r'
      end
  | EmptyString => s
  end.

Definition trim (s : string) : string := trimEnd (trimStart s).

(** [s.split(sep)] for a one-character separator; the empty string splits
    into one empty part. *)
Fixpoint split (sep : ascii) (s : string) : list string :=
  match s with
  | EmptyString => [EmptyString]
  | String c r =>
      if Ascii.eqb c sep then EmptyString :: split sep r
      else match split sep r with
           | p :: ps => String c p :: ps
           | [] => [String c EmptyString]
           end
  end.

Definition backslash : ascii := ascii_of_nat 92.

Definition includes (c : ascii) (s : string) : bool :=
  existsb (Ascii.eqb c) (list_ascii_of_string s).

Definition toUpperChar (c : ascii) : ascii :=
  let n := N_of_ascii c in
  if N.leb 97 n && N.leb n 122 then ascii_of_N (n - 32) else c.

Fixpoint toUpperCase (s : string) : string :=
  match s with
  | String c r => String (toUpperChar c) (toUpperCase r)
  | EmptyString => EmptyString
  end.

(** [s.substring(n)] *)
Fixpoint substringFrom (n : nat) (s : string) : string :=
  match n, s with
  | O, _ => s
  | S n', String _ r => substringFrom n' r
  | S _, EmptyString => EmptyString
  end.

(** A string is falsy exactly when it is empty. *)
Definition nonEmpty (s : string) : bool :=
  match s with EmptyString => false | _ => true end.

(** [a.localeCompare(b)], taken as the code-unit lexicographic order (the
    collation of the host locale is not part of the repository). *)
Definition localeCompare (a b : string) : number :=
  match String.compare a b with
  | Lt => ofZ (-1)
  | Eq => ofZ 0
  | Gt => ofZ 1
  end.

(** ** parseFloat *)

Definition digitOf (c : ascii) : option Z :=
  let n := Z.of_N (N_of_ascii c) in
  if Z.leb 48 n && Z.leb n 57 then Some (n - 48) else None.

(** Reads the longest run of decimal digits: its value continuing [acc],
    the number of digits read added to [cnt], and the rest. *)
Fixpoint decimalDigits (acc : Z) (cnt : nat) (s : string) : Z * nat * string :=
  match s with
  | String c r =>
      match digitOf c with
      | Some d => decimalDigits (10 * acc + d) (S cnt) r
      | None => (acc, cnt, s)
      end
  | EmptyString => (acc, cnt, s)
  end.

Definition signPart (s : string) : bool * string :=
  match s with
  | String "-" r => (true, r)
  | String "+" r => (false, r)
  | _ => (false, s)
  end.

(** The exponent of an [ExponentPart] at the head of [s], 0 when there is
    none (an [e] that no digit follows is not part of the literal). *)
Definition exponentPart (s : string) : Z :=
  match s with
  | String c r =>
      if Ascii.eqb c "e" || Ascii.eqb c "E" then
        let '(negative, r') := signPart r in
        let '(v, n, _) := decimalDigits 0 0 r' in
        match n with
        | O => 0
        | _ => if negative then - v else v
        end
      else 0
  | EmptyString => 0
  end.

(** Magnitudes from here on round to an infinity in binary64. *)
Definition overflowBound : Q := inject_Z (2 ^ 1024 - 2 ^ 970).

(** [parseFloat]: skips leading white space and reads the longest prefix
    that is a decimal literal ([Infinity], digits with an optional
    fraction and exponent, optionally signed); NaN when there is none. *)
Definition parseFloat (text : string) : number :=
  let '(negative, s) := signPart (trimStart text) in
  if String.prefix "Infinity" s then Inf negative
  else
    let '(ip, ni, s1) := decimalDigits 0 0 s in
    let '(m, nf, s2) :=
      match s1 with
      | String "." r => decimalDigits ip 0 r
      | _ => (ip, O, s1)
      end in
    match ni, nf with
    | O, O => NaN
    | _, _ =>
        let ex := exponentPart s2 - Z.of_nat nf in
        let v := Qred (Qmult (inject_Z m) (Qpower (inject_Z 10) ex)) in
        if Qle_bool overflowBound v then Inf negative
        else Fin (if negative then Qopp v else v)
    end.

(** ** Exceptions *)

Inductive completion (A : Type) : Type :=
| Normal (a : A)
| Throw.
Arguments Normal {A} a.
Arguments Throw {A}.

#[global] Instance completion_ret : MRet completion := @Normal.
#[global] Instance completion_bind : MBind completion :=
  fun A B f m => match m with Normal a => f a | Throw => Throw end.
#[global] Instance completion_fmap : FMap completion :=
  fun A B f m => match m with Normal a => Normal (f a) | Throw => Throw end.

(** [try { body } catch { handler }] *)
Definition tryCatch {A} (body handler : completion A) : completion A :=
  match body with
  | Normal a => Normal a
  | Throw => handler
  end.

(** ** The dicom-parser interface *)

Record Element : Type := {
  el_vr : option string;
  el_length : Z;
  el_dataOffset : Z
}.

(** What a parsed [DataSet] answers: [dataSet.string(tag)] and
    [dataSet.uint16(tag)] yield a value, [undefined] ([None]) or throw;
    [dataSet.elements] lists the elements in enumeration order. *)
Record DataSet : Type := {
  ds_string : string -> completion (option string);
  ds_uint16 : string -> completion (option Z);
  ds_elements : list (string * Element)
}.

(** ** Data model ([src/types/dicom.ts]) *)

(** [string | number | string[] | number[] | null] *)
Inductive TagValue : Type :=
| TagNull
| TagString (s : string)
| TagNumber (x : number)
| TagStrings (l : list string)
| TagNumbers (l : list number).

Record DicomTag : Type := {
  tag : string;
  vr : string;
  name : string;
  value : TagValue
}.

(** [number | number[]] *)
Inductive WindowValue : Type :=
| WScalar (x : number)
| WArray (xs : list number).

Module Instance.
Record DicomInstance : Type := {
  filePath : string;
  sopInstanceUID : string;
  instanceNumber : option number;
  imagePositionPatient : option (list number);
  sliceLocation : option number;
  acquisitionNumber : option number;
  rows : option number;
  columns : option number;
  bitsAllocated : option number;
  bitsStored : option number;
  pixelRepresentation : option number;
  photometricInterpretation : option string;
  rescaleSlope : option number;
  rescaleIntercept : option number;
  windowCenter : option WindowValue;
  windowWidth : option WindowValue;
  numberOfFrames : option number;
  transferSyntaxUID : option string
}.
End Instance.
Abbreviation DicomInstance := Instance.DicomInstance.

Module Series.
Record DicomSeries : Type := {
  seriesInstanceUID : string;
  seriesNumber : option number;
  seriesDescription : option string;
  modality : string;
  studyInstanceUID : string;
  instances : list DicomInstance;
  sortedInstances : list DicomInstance
}.
End Series.
Abbreviation DicomSeries := Series.DicomSeries.

Module Study.
Record DicomStudy : Type := {
  studyInstanceUID : string;
  studyDate : option string;
  studyTime : option string;
  studyDescription : option string;
  patientName : option string;
  patientId : option string;
  patientBirthDate : option string;
  patientSex : option string;
  accessionNumber : option string;
  institutionName : option string;
  referringPhysicianName : option string;
  series : gmap string DicomSeries
}.
End Study.
Abbreviation DicomStudy := Study.DicomStudy.

(** [Partial<DicomStudy>] and [Partial<DicomSeries>] as the decoder fills
    them and the grouping reads them; [None] is a missing or [null]
    property (the grouping reads each one through [?? null]). *)
Module StudyInfo.
Record t : Type := {
  studyInstanceUID : option string;
  studyDate : option string;
  studyTime : option string;
  studyDescription : option string;
  patientName : option string;
  patientId : option string;
  patientBirthDate : option string;
  patientSex : option string;
  accessionNumber : option string;
  institutionName : option string;
  referringPhysicianName : option string
}.
End StudyInfo.

Module SeriesInfo.
Record t : Type := {
  seriesInstanceUID : option string;
  seriesNumber : option number;
  seriesDescription : option string;
  modality : option string;
  studyInstanceUID : option string
}.
End SeriesInfo.

Module Parsed.
Record ParsedDicomFile : Type := {
  filePath : string;
  studyInstanceUID : string;
  seriesInstanceUID : string;
  sopInstanceUID : string;
  instance : DicomInstance;
  studyInfo : StudyInfo.t;
  seriesInfo : SeriesInfo.t;
  metadata : gmap string DicomTag
}.
End Parsed.
Abbreviation ParsedDicomFile := Parsed.ParsedDicomFile.

(** ** The decoder ([src/utils/dicomParser.ts]) *)

Definition TAG_DICTIONARY : list (string * string) :=
  [ ("x00020010", "TransferSyntaxUID");
    ("x00080005", "SpecificCharacterSet");
    ("x00080008", "ImageType");
    ("x00080016", "SOPClassUID");
    ("x00080018", "SOPInstanceUID");
    ("x00080020", "StudyDate");
    ("x00080021", "SeriesDate");
    ("x00080030", "StudyTime");
    ("x00080031", "SeriesTime");
    ("x00080050", "AccessionNumber");
    ("x00080060", "Modality");
    ("x00080070", "Manufacturer");
    ("x00080080", "InstitutionName");
    ("x00080090", "ReferringPhysicianName");
    ("x00081030", "StudyDescription");
    ("x0008103e", "SeriesDescription");
    ("x00100010", "PatientName");
    ("x00100020", "PatientID");
    ("x00100030", "PatientBirthDate");
    ("x00100040", "PatientSex");
    ("x00180050", "SliceThickness");
    ("x00180088", "SpacingBetweenSlices");
    ("x00181020", "SoftwareVersions");
    ("x00185100", "PatientPosition");
    ("x0020000d", "StudyInstanceUID");
    ("x0020000e", "SeriesInstanceUID");
    ("x00200010", "StudyID");
    ("x00200011", "SeriesNumber");
    ("x00200012", "AcquisitionNumber");
    ("x00200013", "InstanceNumber");
    ("x00200032", "ImagePositionPatient");
    ("x00200037", "ImageOrientationPatient");
    ("x00201041", "SliceLocation");
    ("x00280002", "SamplesPerPixel");
    ("x00280004", "PhotometricInterpretation");
    ("x00280010", "Rows");
    ("x00280011", "Columns");
    ("x00280030", "PixelSpacing");
    ("x00280100", "BitsAllocated");
    ("x00280101", "BitsStored");
    ("x00280102", "HighBit");
    ("x00280103", "PixelRepresentation");
    ("x00281050", "WindowCenter");
    ("x00281051", "WindowWidth");
    ("x00281052", "RescaleIntercept");
    ("x00281053", "RescaleSlope");
    ("x00281054", "RescaleType");
    ("x00280008", "NumberOfFrames");
    ("x7fe00010", "PixelData") ].

Fixpoint dictionaryLookup (d : list (string * string)) (key : string) : option string :=
  match d with
  | [] => None
  | (k, v) :: d' => if String.eqb k key then Some v else dictionaryLookup d' key
  end.

Definition getString (dataSet : DataSet) (tag : string) : completion (option string) :=
  tryCatch
    (value ← ds_string dataSet tag;
     mret (match value with Some v => Some (trim v) | None => None end))
    (mret None).

Definition getNumber (dataSet : DataSet) (tag : string) : completion (option number) :=
  tryCatch
    (strValue ← ds_string dataSet tag;
     match strValue with
     | None => mret None
     | Some s =>
         let num := parseFloat s in
         mret (if isNaN num then None else Some num)
     end)
    (mret None).

Definition getInt (dataSet : DataSet) (tag : string) : completion (option number) :=
  tryCatch
    (value ← ds_uint16 dataSet tag;
     mret (match value with Some v => Some (ofZ v) | None => None end))
    (mret None).

Definition getNumberArray (dataSet : DataSet) (tag : string)
  : completion (option (list number)) :=
  tryCatch
    (strValue ← ds_string dataSet tag;
     match strValue with
     | None => mret None
     | Some s =>
         let parts := map (fun s => parseFloat (trim s)) (split backslash s) in
         if existsb isNaN parts then mret None else mret (Some parts)
     end)
    (mret None).

(** [name.replace(/\^/g, ' ')] *)
Fixpoint replaceCarets (s : string) : string :=
  match s with
  | String c r => String (if Ascii.eqb c "^" then " "%char else c) (replaceCarets r)
  | EmptyString => EmptyString
  end.

Definition formatPatientName (name : option string) : option string :=
  match name with
  | Some n => if nonEmpty n then Some (trim (replaceCarets n)) else None
  | None => None
  end.

Definition formatTagString (tag : string) : string :=
  match tag with
  | String "x" hex =>
      toUpperCase ("(" ++ String.substring 0 4 hex ++ "," ++ substringFrom 4 hex ++ ")")
  | _ => tag
  end.

(** A window value as the decoder stores it: the parts of the text, parsed
    one by one; a single part is stored as a scalar. *)
Definition windowValue (text : option string) : option WindowValue :=
  match text with
  | Some s =>
      if nonEmpty s then
        let parts := map (fun s => parseFloat (trim s)) (split backslash s) in
        match parts with
        | [x] => Some (WScalar x)
        | _ => Some (WArray parts)
        end
      else None
  | None => None
  end.

Definition orDefault {A} (o : option A) (d : A) : A :=
  match o with Some a => a | None => d end.

(** The [value] of one metadata entry. *)
Definition tagValue (dataSet : DataSet) (tag : string) (element : Element)
  : completion TagValue :=
  tryCatch
    (if bool_decide (el_vr element = Some "SQ") then mret (TagString "[Sequence]")
     else if Z.ltb 256 (el_length element) then
       mret (TagString ("[Binary data: " ++ pretty (el_length element) ++ " bytes]"))
     else
       strValue ← ds_string dataSet tag;
       match strValue with
       | Some s =>
           mret (if includes backslash s then TagStrings (split backslash s)
                 else TagString s)
       | None => mret TagNull
       end)
    (mret TagNull).

Fixpoint extractMetadata (dataSet : DataSet) (elements : list (string * Element))
    (metadata : gmap string DicomTag) : completion (gmap string DicomTag) :=
  match elements with
  | [] => mret metadata
  | (tag, element) :: rest =>
      if String.eqb tag "x7fe00010" then extractMetadata dataSet rest metadata
      else
        let tagName := orDefault (dictionaryLookup TAG_DICTIONARY tag) (formatTagString tag) in
        value ← tagValue dataSet tag element;
        extractMetadata dataSet rest
          (<[tag := {| tag := formatTagString tag;
                       vr := orDefault (el_vr element) "UN";
                       name := tagName;
                       value := value |}]> metadata)
  end.

Definition consoleError : completion unit := mret tt.

Section Decoder.

(** [dicomParser.parseDicom(byteArray)]: a data set, or an exception. *)
Variable parseDicom : list Byte.byte -> completion DataSet.

(** The body of [parseDicomFile]'s [try] block. *)
Definition parseDicomFileBody (arrayBuffer : list Byte.byte) (filePath : string)
  : completion (option ParsedDicomFile) :=
  let byteArray := arrayBuffer in
  dataSet ← parseDicom byteArray;
  studyInstanceUID ← getString dataSet "x0020000d";
  seriesInstanceUID ← getString dataSet "x0020000e";
  sopInstanceUID ← getString dataSet "x00080018";
  match studyInstanceUID, seriesInstanceUID, sopInstanceUID with
  | Some studyUID, Some seriesUID, Some sopUID =>
      if negb (nonEmpty studyUID) || negb (nonEmpty seriesUID) || negb (nonEmpty sopUID)
      then mret None
      else
        wcStr ← getString dataSet "x00281050";
        wwStr ← getString dataSet "x00281051";
        let windowCenter := windowValue wcStr in
        let windowWidth := windowValue wwStr in
        instanceNumber ← getNumber dataSet "x00200013";
        imagePositionPatient ← getNumberArray dataSet "x00200032";
        sliceLocation ← getNumber dataSet "x00201041";
        acquisitionNumber ← getNumber dataSet "x00200012";
        rows ← getInt dataSet "x00280010";
        columns ← getInt dataSet "x00280011";
        bitsAllocated ← getInt dataSet "x00280100";
        bitsStored ← getInt dataSet "x00280101";
        pixelRepresentation ← getInt dataSet "x00280103";
        photometricInterpretation ← getString dataSet "x00280004";
        rescaleSlope ← getNumber dataSet "x00281053";
        rescaleIntercept ← getNumber dataSet "x00281052";
        numberOfFrames ← getNumber dataSet "x00280008";
        transferSyntaxUID ← getString dataSet "x00020010";
        let instance :=
          {| Instance.filePath := filePath;
             Instance.sopInstanceUID := sopUID;
             Instance.instanceNumber := instanceNumber;
             Instance.imagePositionPatient := imagePositionPatient;
             Instance.sliceLocation := sliceLocation;
             Instance.acquisitionNumber := acquisitionNumber;
             Instance.rows := rows;
             Instance.columns := columns;
             Instance.bitsAllocated := bitsAllocated;
             Instance.bitsStored := bitsStored;
             Instance.pixelRepresentation := pixelRepresentation;
             Instance.photometricInterpretation := photometricInterpretation;
             Instance.rescaleSlope := Some (orDefault rescaleSlope (ofZ 1));
             Instance.rescaleIntercept := Some (orDefault rescaleIntercept (ofZ 0));
             Instance.windowCenter := windowCenter;
             Instance.windowWidth := windowWidth;
             Instance.numberOfFrames := numberOfFrames;
             Instance.transferSyntaxUID := transferSyntaxUID |} in
        studyDate ← getString dataSet "x00080020";
        studyTime ← getString dataSet "x00080030";
        studyDescription ← getString dataSet "x00081030";
        patientName ← getString dataSet "x00100010";
        patientId ← getString dataSet "x00100020";
        patientBirthDate ← getString dataSet "x00100030";
        patientSex ← getString dataSet "x00100040";
        accessionNumber ← getString dataSet "x00080050";
        institutionName ← getString dataSet "x00080080";
        referringPhysicianName ← getString dataSet "x00080090";
        let studyInfo :=
          {| StudyInfo.studyInstanceUID := Some studyUID;
             StudyInfo.studyDate := studyDate;
             StudyInfo.studyTime := studyTime;
             StudyInfo.studyDescription := studyDescription;
             StudyInfo.patientName := formatPatientName patientName;
             StudyInfo.patientId := patientId;
             StudyInfo.patientBirthDate := patientBirthDate;
             StudyInfo.patientSex := patientSex;
             StudyInfo.accessionNumber := accessionNumber;
             StudyInfo.institutionName := institutionName;
             StudyInfo.referringPhysicianName := referringPhysicianName |} in
        seriesNumber ← getNumber dataSet "x00200011";
        seriesDescription ← getString dataSet "x0008103e";
        modality ← getString dataSet "x00080060";
        let seriesInfo :=
          {| SeriesInfo.seriesInstanceUID := Some seriesUID;
             SeriesInfo.seriesNumber := seriesNumber;
             SeriesInfo.seriesDescription := seriesDescription;
             SeriesInfo.modality := Some (orDefault modality "OT");
             SeriesInfo.studyInstanceUID := Some studyUID |} in
        metadata ← extractMetadata dataSet (ds_elements dataSet) ∅;
        mret (Some {| Parsed.filePath := filePath;
                      Parsed.studyInstanceUID := studyUID;
                      Parsed.seriesInstanceUID := seriesUID;
                      Parsed.sopInstanceUID := sopUID;
                      Parsed.instance := instance;
                      Parsed.studyInfo := studyInfo;
                      Parsed.seriesInfo := seriesInfo;
                      Parsed.metadata := metadata |})
  | _, _, _ => mret None
  end.

(** [parseDicomFile]: the body, with every exception turned into [null]. *)
Definition parseDicomFile (arrayBuffer : list Byte.byte) (filePath : string)
  : completion (option ParsedDicomFile) :=
  tryCatch (parseDicomFileBody arrayBuffer filePath)
           (_ ← consoleError; mret None).

End Decoder.

(** ** Array.prototype.sort *)

(** ECMAScript specifies [sort] as a stable sort that calls the comparator
    in an implementation-defined sequence, a NaN verdict counting as 0.
    It is modelled as the stable insertion sort: an element moves right
    past the elements it compares greater than. *)
Section Sort.

Context {A : Type} (comparefn : A -> A -> number).

Definition sortCompare (x y : A) : number :=
  let v := comparefn x y in
  if isNaN v then ofZ 0 else v.

Fixpoint insertSorted (x : A) (l : list A) : list A :=
  match l with
  | [] => [x]
  | y :: l' =>
      if (sortCompare x y >? ofZ 0)%num then y :: insertSorted x l'
      else x :: l
  end.

Definition sort (l : list A) : list A := foldr insertSorted [] l.

End Sort.

(** ** Instance ordering *)

Definition tolerance : number := Fin (1 # 1000).

(** [p[2]] inside a subtraction: a missing component is [undefined], which
    converts to NaN. *)
Definition zCoordinate (p : list number) : number :=
  match p !! 2%nat with
  | Some z => z
  | None => NaN
  end.

(** The verdict of a tolerance level, [None] when the cascade goes on. *)
Definition toleranceLevel (x y : option number) : option number :=
  match x, y with
  | Some u, Some v =>
      let diff := (u - v)%num in
      if (abs diff >? tolerance)%num then Some diff else None
  | _, _ => None
  end.

(** The verdict of an exact level: it is final whenever both keys are
    carried. *)
Definition exactLevel (x y : option number) : option number :=
  match x, y with
  | Some u, Some v => Some (u - v)%num
  | _, _ => None
  end.

(** The comparator handed to [sort] in [sortInstances]. *)
Definition compareInstances (a b : DicomInstance) : number :=
  match toleranceLevel (zCoordinate <$> Instance.imagePositionPatient a)
                       (zCoordinate <$> Instance.imagePositionPatient b) with
  | Some zDiff => zDiff
  | None =>
  match toleranceLevel (Instance.sliceLocation a) (Instance.sliceLocation b) with
  | Some sliceDiff => sliceDiff
  | None =>
  match exactLevel (Instance.instanceNumber a) (Instance.instanceNumber b) with
  | Some d => d
  | None =>
  match exactLevel (Instance.acquisitionNumber a) (Instance.acquisitionNumber b) with
  | Some d => d
  | None => localeCompare (Instance.filePath a) (Instance.filePath b)
  end end end end.

Definition sortInstances (instances : list DicomInstance) : list DicomInstance :=
  sort compareInstances instances.

(** ** Hierarchy builder *)

Definition newStudy (file : ParsedDicomFile) : DicomStudy :=
  let info := Parsed.studyInfo file in
  {| Study.studyInstanceUID := Parsed.studyInstanceUID file;
     Study.studyDate := StudyInfo.studyDate info;
     Study.studyTime := StudyInfo.studyTime info;
     Study.studyDescription := StudyInfo.studyDescription info;
     Study.patientName := StudyInfo.patientName info;
     Study.patientId := StudyInfo.patientId info;
     Study.patientBirthDate := StudyInfo.patientBirthDate info;
     Study.patientSex := StudyInfo.patientSex info;
     Study.accessionNumber := StudyInfo.accessionNumber info;
     Study.institutionName := StudyInfo.institutionName info;
     Study.referringPhysicianName := StudyInfo.referringPhysicianName info;
     Study.series := ∅ |}.

Definition newSeries (file : ParsedDicomFile) : DicomSeries :=
  let info := Parsed.seriesInfo file in
  {| Series.seriesInstanceUID := Parsed.seriesInstanceUID file;
     Series.seriesNumber := SeriesInfo.seriesNumber info;
     Series.seriesDescription := SeriesInfo.seriesDescription info;
     Series.modality := orDefault (SeriesInfo.modality info) "OT";
     Series.studyInstanceUID := Parsed.studyInstanceUID file;
     Series.instances := [];
     Series.sortedInstances := [] |}.

Definition setInstances (s : DicomSeries) (l : list DicomInstance) : DicomSeries :=
  {| Series.seriesInstanceUID := Series.seriesInstanceUID s;
     Series.seriesNumber := Series.seriesNumber s;
     Series.seriesDescription := Series.seriesDescription s;
     Series.modality := Series.modality s;
     Series.studyInstanceUID := Series.studyInstanceUID s;
     Series.instances := l;
     Series.sortedInstances := Series.sortedInstances s |}.

Definition setSortedInstances (s : DicomSeries) (l : list DicomInstance) : DicomSeries :=
  {| Series.seriesInstanceUID := Series.seriesInstanceUID s;
     Series.seriesNumber := Series.seriesNumber s;
     Series.seriesDescription := Series.seriesDescription s;
     Series.modality := Series.modality s;
     Series.studyInstanceUID := Series.studyInstanceUID s;
     Series.instances := Series.instances s;
     Series.sortedInstances := l |}.

Definition setSeries (s : DicomStudy) (m : gmap string DicomSeries) : DicomStudy :=
  {| Study.studyInstanceUID := Study.studyInstanceUID s;
     Study.studyDate := Study.studyDate s;
     Study.studyTime := Study.studyTime s;
     Study.studyDescription := Study.studyDescription s;
     Study.patientName := Study.patientName s;
     Study.patientId := Study.patientId s;
     Study.patientBirthDate := Study.patientBirthDate s;
     Study.patientSex := Study.patientSex s;
     Study.accessionNumber := Study.accessionNumber s;
     Study.institutionName := Study.institutionName s;
     Study.referringPhysicianName := Study.referringPhysicianName s;
     Study.series := m |}.

(** One turn of the loop over the parsed files.  The source mutates the
    study and the series it finds in the maps; here the updated objects
    are stored back under their keys. *)
Definition addFile (studies : gmap string DicomStudy) (file : ParsedDicomFile)
  : gmap string DicomStudy :=
  let study := orDefault (studies !! Parsed.studyInstanceUID file) (newStudy file) in
  let series := orDefault (Study.series study !! Parsed.seriesInstanceUID file)
                          (newSeries file) in
  let series' := setInstances series (Series.instances series ++ [Parsed.instance file]) in
  let study' := setSeries study
                  (<[Parsed.seriesInstanceUID file := series']> (Study.series study)) in
  <[Parsed.studyInstanceUID file := study']> studies.

Definition sortSeries (s : DicomSeries) : DicomSeries :=
  setSortedInstances s (sortInstances (Series.instances s)).

Definition groupDicomFiles (parsedFiles : list ParsedDicomFile) : gmap string DicomStudy :=
  let studies := foldl addFile ∅ parsedFiles in
  (fun study => setSeries study (sortSeries <$> Study.series study)) <$> studies.

(** ** Rendering ([src/components/Viewport.tsx]) *)

Module Viewer.
Record ViewerState : Type := {
  windowCenter : number;
  windowWidth : number;
  zoom : number;
  panX : number;
  panY : number
}.
End Viewer.
Abbreviation ViewerState := Viewer.ViewerState.

(** The state the viewport starts in, and returns to on [resetView]. *)
Definition initialViewerState : ViewerState :=
  {| Viewer.windowCenter := ofZ 40;
     Viewer.windowWidth := ofZ 400;
     Viewer.zoom := ofZ 1;
     Viewer.panX := ofZ 0;
     Viewer.panY := ofZ 0 |}.

(** [dataSet.elements[tag]] *)
Fixpoint dictionaryLookupElement (elements : list (string * Element)) (key : string)
  : option Element :=
  match elements with
  | [] => None
  | (k, e) :: rest => if String.eqb k key then Some e else dictionaryLookupElement rest key
  end.

(** [dataSet.uint16(tag) || d] *)
Definition uint16Or (dataSet : DataSet) (tag : string) (d : Z) : completion Z :=
  v ← ds_uint16 dataSet tag;
  mret (match v with
        | Some n => if Z.eqb n 0 then d else n
        | None => d
        end).

(** [dataSet.string(tag) || d] *)
Definition stringOr (dataSet : DataSet) (tag : string) (d : string) : completion string :=
  v ← ds_string dataSet tag;
  mret (match v with
        | Some s => if nonEmpty s then s else d
        | None => d
        end).

(** [text.split('\\')[0]] *)
Definition firstValue (text : string) : string :=
  match split backslash text with
  | p :: _ => p
  | [] => EmptyString
  end.

(** The window the frame is rendered with: the first values of the file's
    window center and width when both texts are present and non-empty, the
    viewer state's otherwise. *)
Definition selectWindow (viewerState : ViewerState) (wcStr wwStr : option string)
  : number * number :=
  match wcStr, wwStr with
  | Some c, Some w =>
      if nonEmpty c && nonEmpty w
      then (parseFloat (firstValue c), parseFloat (firstValue w))
      else (Viewer.windowCenter viewerState, Viewer.windowWidth viewerState)
  | _, _ => (Viewer.windowCenter viewerState, Viewer.windowWidth viewerState)
  end.

(** [new DataView(buffer, byteOffset, byteLength)] *)
Definition dataView (buffer : list Byte.byte) (byteOffset byteLength : Z)
  : completion (list Byte.byte) :=
  if Z.leb 0 byteOffset && Z.leb 0 byteLength
     && Z.leb (byteOffset + byteLength) (Z.of_nat (length buffer))
  then mret (take (Z.to_nat byteLength) (drop (Z.to_nat byteOffset) buffer))
  else Throw.

Definition byteAt (view : list Byte.byte) (i : Z) : completion Z :=
  if Z.ltb i 0 then Throw
  else match view !! Z.to_nat i with
       | Some b => mret (Z.of_N (Byte.to_N b))
       | None => Throw
       end.

Definition getUint8 (view : list Byte.byte) (byteOffset : Z) : completion Z :=
  byteAt view byteOffset.

(** Little-endian reads ([littleEndian = true] in the source). *)
Definition getUint16 (view : list Byte.byte) (byteOffset : Z) : completion Z :=
  lo ← byteAt view byteOffset;
  hi ← byteAt view (byteOffset + 1);
  mret (lo + 256 * hi).

Definition getInt16 (view : list Byte.byte) (byteOffset : Z) : completion Z :=
  u ← getUint16 view byteOffset;
  mret (if Z.leb 32768 u then u - 65536 else u).

Definition readSample (pixelData : list Byte.byte) (bytesPerPixel : number)
    (isSigned : bool) (i : Z) : completion number :=
  if Num.eqb bytesPerPixel (ofZ 2) then
    if isSigned then ofZ <$> getInt16 pixelData (i * 2)
    else ofZ <$> getUint16 pixelData (i * 2)
  else if Num.eqb bytesPerPixel (ofZ 1) then ofZ <$> getUint8 pixelData i
  else mret (ofZ 0).

(** "Apply rescale" *)
Definition modalityValue (pixelValue rescaleSlope rescaleIntercept : number) : number :=
  (pixelValue * rescaleSlope + rescaleIntercept)%num.

Definition windowLow (wc ww : number) : number := (wc - ww / ofZ 2)%num.
Definition windowHigh (wc ww : number) : number := (wc + ww / ofZ 2)%num.

(** The arm of the window/level conditional a modality value takes; the
    division by the width is in the last arm only. *)
Inductive WindowArm : Type := ClampLow | ClampHigh | Scale.

Definition windowArm (mv low high : number) : WindowArm :=
  if (mv <=? low)%num then ClampLow
  else if (mv >=? high)%num then ClampHigh
  else Scale.

(** "Apply window/level" *)
Definition displayValue (mv wc ww : number) : number :=
  let low := windowLow wc ww in
  let high := windowHigh wc ww in
  match windowArm mv low high with
  | ClampLow => ofZ 0
  | ClampHigh => ofZ 255
  | Scale => round (((mv - low) / ww) * ofZ 255)%num
  end.

(** The four bytes stored for one sample. *)
Definition rgba (display : number) : list Z :=
  let v := toUint8Clamp display in [v; v; v; 255].

Fixpoint renderPixels (count : nat) (i : Z) (pixelData : list Byte.byte)
    (bytesPerPixel : number) (isSigned : bool)
    (rescaleSlope rescaleIntercept wc ww : number) : completion (list Z) :=
  match count with
  | O => mret []
  | S count' =>
      pixelValue ← readSample pixelData bytesPerPixel isSigned i;
      let mv := modalityValue pixelValue rescaleSlope rescaleIntercept in
      rest ← renderPixels count' (i + 1) pixelData bytesPerPixel isSigned
               rescaleSlope rescaleIntercept wc ww;
      mret (rgba (displayValue mv wc ww) ++ rest)%list
  end.

Inductive RenderResult : Type :=
| Rendered (viewerState : ViewerState) (columns rows : Z) (data : list Z)
| RenderError.

Section Render.

Variable parseDicom : list Byte.byte -> completion DataSet.

(** The [try] block of [renderImage], from the parse of the file's bytes
    to the image data handed to the canvas. *)
Definition renderImageBody (viewerState : ViewerState) (byteArray : list Byte.byte)
  : completion (ViewerState * Z * Z * list Z) :=
  dataSet ← parseDicom byteArray;
  rows ← uint16Or dataSet "x00280010" 512;
  columns ← uint16Or dataSet "x00280011" 512;
  bitsAllocated ← uint16Or dataSet "x00280100" 16;
  bitsStored ← uint16Or dataSet "x00280101" 12;
  pixelRepresentation ← uint16Or dataSet "x00280103" 0;
  slopeText ← stringOr dataSet "x00281053" "1";
  interceptText ← stringOr dataSet "x00281052" "0";
  let rescaleSlope := parseFloat slopeText in
  let rescaleIntercept := parseFloat interceptText in
  wcStr ← ds_string dataSet "x00281050";
  wwStr ← ds_string dataSet "x00281051";
  let '(wc, ww) := selectWindow viewerState wcStr wwStr in
  let viewerState' :=
    {| Viewer.windowCenter := wc;
       Viewer.windowWidth := ww;
       Viewer.zoom := Viewer.zoom viewerState;
       Viewer.panX := Viewer.panX viewerState;
       Viewer.panY := Viewer.panY viewerState |} in
  match dictionaryLookupElement (ds_elements dataSet) "x7fe00010" with
  | None => Throw
  | Some pixelDataElement =>
      pixelData ← dataView byteArray (el_dataOffset pixelDataElement)
                                     (el_length pixelDataElement);
      let isSigned := Z.eqb pixelRepresentation 1 in
      let bytesPerPixel := (ofZ bitsAllocated / ofZ 8)%num in
      data ← renderPixels (Z.to_nat (rows * columns)) 0 pixelData bytesPerPixel
               isSigned rescaleSlope rescaleIntercept wc ww;
      mret (viewerState', columns, rows, data)
  end.

Definition renderImage (viewerState : ViewerState) (byteArray : list Byte.byte)
  : RenderResult :=
  match renderImageBody viewerState byteArray with
  | Normal (vs, columns, rows, data) => Rendered vs columns rows data
  | Throw => RenderError
  end.

End Render.

(** ** The pixel transform in binary64

    The same two functions on IEEE 754 binary64 values, to evaluate the
    specification's test vectors with the rounding of the real
    arithmetic. *)

Module Binary64.

Definition prec : Z := 53.
Definition emax : Z := 1024.

Definition ofZ (z : Z) : spec_float := binary_normalize prec emax z 0 false.

Definition add : spec_float -> spec_float -> spec_float := SFadd prec emax.
Definition sub : spec_float -> spec_float -> spec_float := SFsub prec emax.
Definition mul : spec_float -> spec_float -> spec_float := SFmul prec emax.
Definition div : spec_float -> spec_float -> spec_float := SFdiv prec emax.

(** [Math.round]: a value with a non-negative exponent is an integer
    already; otherwise the floor of the value plus one half. *)
Definition round (x : spec_float) : spec_float :=
  match x with
  | S754_finite s m e =>
      if Z.leb 0 e then x
      else
        let v := if s then Z.neg m else Z.pos m in
        let d := Z.pow 2 (- e) in
        ofZ (Z.div (2 * v + d) (2 * d))
  | _ => x
  end.

Definition modalityValue (pixelValue rescaleSlope rescaleIntercept : spec_float)
  : spec_float :=
  add (mul pixelValue rescaleSlope) rescaleIntercept.

Definition displayValue (mv wc ww : spec_float) : spec_float :=
  let windowLow := sub wc (div ww (ofZ 2)) in
  let windowHigh := add wc (div ww (ofZ 2)) in
  if SFleb mv windowLow then ofZ 0
  else if SFleb windowHigh mv then ofZ 255
  else round (mul (div (sub mv windowLow) ww) (ofZ 255)).

End Binary64.

(** ** Viewer interaction ([src/components/Viewport.tsx])

    The pointer handlers and the viewer controls, as functions of the
    pointer state and the viewer state.  Client coordinates are numbers.
    The constants 0.1 and 0.01 are kept as the rationals 1/10 and 1/100. *)

(** [Math.max] and [Math.min] of two numbers: NaN when either is NaN. *)
Definition mathMax (x y : number) : number :=
  if isNaN x || isNaN y then NaN else if (x <? y)%num then y else x.

Definition mathMin (x y : number) : number :=
  if isNaN x || isNaN y then NaN else if (y <? x)%num then y else x.

Module Tool.
Inductive ViewerTool : Type := windowLevel | pan | zoom | scroll.
End Tool.
Abbreviation ViewerTool := Tool.ViewerTool.

(** [isDraggingRef] and [lastPosRef]. *)
Record Pointer : Type := {
  isDragging : bool;
  lastX : number;
  lastY : number
}.

Definition setWindow (s : ViewerState) (wc ww : number) : ViewerState :=
  {| Viewer.windowCenter := wc;
     Viewer.windowWidth := ww;
     Viewer.zoom := Viewer.zoom s;
     Viewer.panX := Viewer.panX s;
     Viewer.panY := Viewer.panY s |}.

Definition setPan (s : ViewerState) (x y : number) : ViewerState :=
  {| Viewer.windowCenter := Viewer.windowCenter s;
     Viewer.windowWidth := Viewer.windowWidth s;
     Viewer.zoom := Viewer.zoom s;
     Viewer.panX := x;
     Viewer.panY := y |}.

Definition setZoom (s : ViewerState) (z : number) : ViewerState :=
  {| Viewer.windowCenter := Viewer.windowCenter s;
     Viewer.windowWidth := Viewer.windowWidth s;
     Viewer.zoom := z;
     Viewer.panX := Viewer.panX s;
     Viewer.panY := Viewer.panY s |}.

Definition handleMouseDown (clientX clientY : number) : Pointer :=
  {| isDragging := true; lastX := clientX; lastY := clientY |}.

Definition handleMouseUp (p : Pointer) : Pointer :=
  {| isDragging := false; lastX := lastX p; lastY := lastY p |}.

(** The update of the viewer state for a pointer move of the given
    deltas. *)
Definition dragUpdate (activeTool : ViewerTool) (deltaX deltaY : number)
    (prev : ViewerState) : ViewerState :=
  match activeTool with
  | Tool.windowLevel =>
      setWindow prev (Viewer.windowCenter prev + deltaY)%num
                     (mathMax (ofZ 1) (Viewer.windowWidth prev + deltaX * ofZ 2)%num)
  | Tool.pan =>
      setPan prev (Viewer.panX prev + deltaX)%num (Viewer.panY prev + deltaY)%num
  | Tool.zoom =>
      let zoomDelta := (deltaY * Fin (-1 # 100))%num in
      setZoom prev (mathMax (Fin (1 # 10))
                      (mathMin (ofZ 10) (Viewer.zoom prev + zoomDelta)%num))
  | Tool.scroll => prev
  end.

Definition handleMouseMove (activeTool : ViewerTool) (clientX clientY : number)
    (p : Pointer) (s : ViewerState) : Pointer * ViewerState :=
  if negb (isDragging p) then (p, s)
  else
    let deltaX := (clientX - lastX p)%num in
    let deltaY := (clientY - lastY p)%num in
    ({| isDragging := isDragging p; lastX := clientX; lastY := clientY |},
     dragUpdate activeTool deltaX deltaY s).

Definition zoomIn (prev : ViewerState) : ViewerState :=
  setZoom prev (mathMin (ofZ 10) (Viewer.zoom prev * Fin (5 # 4))%num).

Definition zoomOut (prev : ViewerState) : ViewerState :=
  setZoom prev (mathMax (Fin (1 # 10)) (Viewer.zoom prev / Fin (5 # 4))%num).

Definition fitToWindow (prev : ViewerState) : ViewerState :=
  setPan (setZoom prev (ofZ 1)) (ofZ 0) (ofZ 0).

Definition resetView : ViewerState := initialViewerState.

(** What can happen to the viewport between two renderings, and the
    window a rendering takes from its file. *)
Inductive ViewportEvent : Type :=
| MouseDown (clientX clientY : number)
| MouseMove (activeTool : ViewerTool) (clientX clientY : number)
| MouseUp
| ZoomIn
| ZoomOut
| FitToWindow
| ResetView
| Rendering (wcStr wwStr : option string).

Definition viewportStep (st : Pointer * ViewerState) (e : ViewportEvent)
  : Pointer * ViewerState :=
  let '(p, s) := st in
  match e with
  | MouseDown x y => (handleMouseDown x y, s)
  | MouseMove tool x y => handleMouseMove tool x y p s
  | MouseUp => (handleMouseUp p, s)
  | ZoomIn => (p, zoomIn s)
  | ZoomOut => (p, zoomOut s)
  | FitToWindow => (p, fitToWindow s)
  | ResetView => (p, resetView)
  | Rendering wcStr wwStr =>
      let '(wc, ww) := selectWindow s wcStr wwStr in (p, setWindow s wc ww)
  end.

Definition initialPointer : Pointer :=
  {| isDragging := false; lastX := ofZ 0; lastY := ofZ 0 |}.

(** ** Selection and slice navigation
    ([src/store/useAppStore.ts], [src/App.tsx], [src/components/Viewport.tsx],
    [src/components/SeriesBrowser.tsx])

    The slice index is an integer: it starts at 0 and every handler sets it
    to an integer. *)

(** The list a series is shown by: the sorted one unless it is empty. *)
Definition displayedInstances (series : DicomSeries) : list DicomInstance :=
  if Nat.ltb 0 (length (Series.sortedInstances series))
  then Series.sortedInstances series
  else Series.instances series.

(** [instances[index] ?? null] *)
Definition atIndex {A} (l : list A) (index : Z) : option A :=
  if Z.ltb index 0 then None else l !! Z.to_nat index.

(** [handleWheel] of the viewport: the new slice index. *)
Definition handleWheel (deltaY : number) (series : option DicomSeries)
    (selectedInstanceIndex : Z) : Z :=
  match series with
  | None => selectedInstanceIndex
  | Some s =>
      let maxIndex := Z.of_nat (length (displayedInstances s)) - 1 in
      if (deltaY >? ofZ 0)%num then Z.min (selectedInstanceIndex + 1) maxIndex
      else Z.max (selectedInstanceIndex - 1) 0
  end.

(** The keyboard navigation of [App.tsx]. *)
Definition keyboardMaxIndex (series : option DicomSeries) : Z :=
  let instances := match series with
                   | Some s => displayedInstances s
                   | None => []
                   end in
  Z.max 0 (Z.of_nat (length instances) - 1).

Definition onNextSlice (series : option DicomSeries) (selectedInstanceIndex : Z) : Z :=
  Z.min (selectedInstanceIndex + 1) (keyboardMaxIndex series).

Definition onPrevSlice (selectedInstanceIndex : Z) : Z :=
  Z.max (selectedInstanceIndex - 1) 0.

(** The studies and the selection of the application store
    ([src/store/useAppStore.ts]); its other slices (theme, scan progress,
    panels, modals, error) are set independently of these. *)
Module Store.
Record AppState : Type := {
  studies : gmap string DicomStudy;
  selectedStudyUID : option string;
  selectedSeriesUID : option string;
  selectedInstanceIndex : Z
}.
End Store.
Abbreviation AppState := Store.AppState.

Definition setStudies (studies : gmap string DicomStudy) (st : AppState) : AppState :=
  {| Store.studies := studies;
     Store.selectedStudyUID := Store.selectedStudyUID st;
     Store.selectedSeriesUID := Store.selectedSeriesUID st;
     Store.selectedInstanceIndex := Store.selectedInstanceIndex st |}.

Definition clearStudies (st : AppState) : AppState :=
  {| Store.studies := ∅;
     Store.selectedStudyUID := None;
     Store.selectedSeriesUID := None;
     Store.selectedInstanceIndex := 0 |}.

Definition setSelectedStudy (uid : option string) (st : AppState) : AppState :=
  {| Store.studies := Store.studies st;
     Store.selectedStudyUID := uid;
     Store.selectedSeriesUID := Store.selectedSeriesUID st;
     Store.selectedInstanceIndex := Store.selectedInstanceIndex st |}.

Definition setSelectedSeries (uid : option string) (st : AppState) : AppState :=
  {| Store.studies := Store.studies st;
     Store.selectedStudyUID := Store.selectedStudyUID st;
     Store.selectedSeriesUID := uid;
     Store.selectedInstanceIndex := 0 |}.

Definition setSelectedInstanceIndex (index : Z) (st : AppState) : AppState :=
  {| Store.studies := Store.studies st;
     Store.selectedStudyUID := Store.selectedStudyUID st;
     Store.selectedSeriesUID := Store.selectedSeriesUID st;
     Store.selectedInstanceIndex := index |}.

Definition getSelectedStudy (st : AppState) : option DicomStudy :=
  match Store.selectedStudyUID st with
  | Some uid => if nonEmpty uid then Store.studies st !! uid else None
  | None => None
  end.

Definition getSelectedSeries (st : AppState) : option DicomSeries :=
  match getSelectedStudy st, Store.selectedSeriesUID st with
  | Some study, Some uid => if nonEmpty uid then Study.series study !! uid else None
  | _, _ => None
  end.

Definition getSelectedInstance (st : AppState) : option DicomInstance :=
  match getSelectedSeries st with
  | None => None
  | Some series => atIndex (displayedInstances series) (Store.selectedInstanceIndex st)
  end.

(** [handleSeriesClick] of the series browser. *)
Definition handleSeriesClick (series : DicomSeries) (st : AppState) : AppState :=
  setSelectedSeries (Some (Series.seriesInstanceUID series))
    (setSelectedStudy (Some (Series.studyInstanceUID series)) st).

(** The wheel handler and the keyboard navigation, on the store. *)
Definition wheel (deltaY : number) (st : AppState) : AppState :=
  match getSelectedSeries st with
  | None => st
  | Some _ =>
      setSelectedInstanceIndex
        (handleWheel deltaY (getSelectedSeries st) (Store.selectedInstanceIndex st)) st
  end.

Definition nextSlice (st : AppState) : AppState :=
  setSelectedInstanceIndex
    (onNextSlice (getSelectedSeries st) (Store.selectedInstanceIndex st)) st.

Definition prevSlice (st : AppState) : AppState :=
  setSelectedInstanceIndex (onPrevSlice (Store.selectedInstanceIndex st)) st.

(** ** The scan ([src/hooks/useDicomScanner.ts])

    [scanFolder] from the list of files that the main process found: the
    check for an empty list, the batches, the cancellation checks and the
    grouping.  The progress display and the selection of the first study
    are not represented. *)

(** What [window.dicom.readFile] resolves to; [rr_data] stands for the
    bytes of [data.buffer], absent when [data] is. *)
Record ReadResult : Type := {
  rr_success : bool;
  rr_data : option (list Byte.byte)
}.

Inductive BatchResult : Type :=
| ResultParsed (parsed : ParsedDicomFile)
| ResultError (error : string).

Definition BATCH_SIZE : nat := 20.

(** [files.slice(start, end)] *)
Definition slice {A} (first last : nat) (l : list A) : list A :=
  take (last - first) (drop first l).

Inductive ScanOutcome : Type :=
| ScanNoFiles
| ScanCancelled
| ScanCompleted (parsedFiles : list ParsedDicomFile) (errors : list string)
                (studies : gmap string DicomStudy)
| ScanOutOfFuel.

Section Scan.

Variable readFile : string -> completion ReadResult.
Variable parseDicom : list Byte.byte -> completion DataSet.

(** The body mapped over a batch. *)
Definition parseOne (filePath : string) : BatchResult :=
  let body :=
    fileResult ← readFile filePath;
    match rr_success fileResult, rr_data fileResult with
    | true, Some data =>
        parsed ← parseDicomFile parseDicom data filePath;
        match parsed with
        | Some p => mret (ResultParsed p)
        | None => mret (ResultError filePath)
        end
    | _, _ => mret (ResultError filePath)
    end in
  match body with
  | Normal r => r
  | Throw => ResultError filePath
  end.

(** "Collect results" *)
Definition collect (acc : list ParsedDicomFile * list string) (result : BatchResult)
  : list ParsedDicomFile * list string :=
  match result with
  | ResultParsed p => ((fst acc ++ [p])%list, snd acc)
  | ResultError e => if nonEmpty e then (fst acc, (snd acc ++ [e])%list) else acc
  end.

(** The loop over the batches; [cancelled k] is what the cancellation flag
    reads at the [k]-th check.  The loop ends with the number of checks made
    and the two lists ([inl (Some _)]), or at a set flag ([inl None]);
    [inr tt] is a loop that ran out of fuel. *)
Fixpoint scanLoop (fuel : nat) (cancelled : nat -> bool) (check i : nat)
    (files : list string) (acc : list ParsedDicomFile * list string)
  : option (nat * (list ParsedDicomFile * list string)) + unit :=
  if Nat.ltb i (length files) then
    match fuel with
    | O => inr tt
    | S fuel' =>
        if cancelled check then inl None
        else
          let batch := slice i (i + BATCH_SIZE) files in
          let batchResults := map parseOne batch in
          scanLoop fuel' cancelled (S check) (i + BATCH_SIZE) files
                   (foldl collect acc batchResults)
    end
  else inl (Some (check, acc)).

(** [scanFolder] from the check of the number of files; a completed scan
    hands [studies] to [setStudies]. *)
Definition scanFiles (cancelled : nat -> bool) (files : list string) : ScanOutcome :=
  if Nat.eqb (length files) 0 then ScanNoFiles
  else
    match scanLoop (length files) cancelled 0 0 files ([], []) with
    | inr _ => ScanOutOfFuel
    | inl None => ScanCancelled
    | inl (Some (check, (parsedFiles, errors))) =>
        if cancelled check then ScanCancelled
        else ScanCompleted parsedFiles errors (groupDicomFiles parsedFiles)
    end.

(** The outcome of one file. *)
Definition parsedOf (filePath : string) : option ParsedDicomFile :=
  match parseOne filePath with
  | ResultParsed p => Some p
  | ResultError _ => None
  end.

End Scan.

(** * Vocabulary of the properties *)

(** [opposite x y]: [y] is [-x], up to the representation of a rational. *)
Definition opposite (x y : number) : Prop :=
  match x, y with
  | NaN, NaN => True
  | Inf s, Inf t => s = negb t
  | Fin p, Fin q => Qeq p (Qopp q)
  | _, _ => False
  end.

(** [x] may stand immediately before [y] in the output of [sort]. *)
Definition inOrder {A} (comparefn : A -> A -> number) (x y : A) : Prop :=
  (sortCompare comparefn x y >? ofZ 0)%num = false.

(** What a returned record is known to hold. *)
Definition complete (filePath : string) (file : ParsedDicomFile) : Prop :=
  Parsed.filePath file = filePath
  /\ Instance.filePath (Parsed.instance file) = filePath
  /\ Instance.sopInstanceUID (Parsed.instance file) = Parsed.sopInstanceUID file
  /\ nonEmpty (Parsed.studyInstanceUID file) = true
  /\ nonEmpty (Parsed.seriesInstanceUID file) = true
  /\ nonEmpty (Parsed.sopInstanceUID file) = true.

(** [a] compares less-than-or-equal to [b]: the comparator's verdict is at
    most 0. *)
Definition compareLe (a b : DicomInstance) : bool :=
  (compareInstances a b <=? ofZ 0)%num.

(** One level of the cascade in front of the verdict of the levels after
    it. *)
Definition toleranceStep (x y : option number) (rest : number) : number :=
  match toleranceLevel x y with Some d => d | None => rest end.

Definition exactStep (x y : option number) (rest : number) : number :=
  match exactLevel x y with Some d => d | None => rest end.

Definition carried {A} (x : option A) : bool :=
  match x with Some _ => true | None => false end.

Definition zKey (a : DicomInstance) : option number :=
  zCoordinate <$> Instance.imagePositionPatient a.

(** Two instances carry the same ordering keys. *)
Definition sameKeys (a b : DicomInstance) : Prop :=
  carried (zKey a) = carried (zKey b)
  /\ carried (Instance.sliceLocation a) = carried (Instance.sliceLocation b)
  /\ carried (Instance.instanceNumber a) = carried (Instance.instanceNumber b)
  /\ carried (Instance.acquisitionNumber a) = carried (Instance.acquisitionNumber b).

(** Two key values are more than the tolerance apart, or equal. *)
Definition apartOrEqual (x y : option number) : Prop :=
  match x, y with
  | Some u, Some v => (abs (u - v) >? tolerance)%num = true \/ Num.eqb u v = true
  | _, _ => True
  end.

Definition separated (a b : DicomInstance) : Prop :=
  apartOrEqual (zKey a) (zKey b)
  /\ apartOrEqual (Instance.sliceLocation a) (Instance.sliceLocation b).

(** ** Sample data *)

(** An instance that carries the given ordering keys and nothing else that
    matters to the ordering (the [createInstance] of the test suite). *)
Definition sampleInstance (path : string) (position : option (list number))
    (slice number acquisition : option number) : DicomInstance :=
  {| Instance.filePath := path;
     Instance.sopInstanceUID := "1.2.3." ++ path;
     Instance.instanceNumber := number;
     Instance.imagePositionPatient := position;
     Instance.sliceLocation := slice;
     Instance.acquisitionNumber := acquisition;
     Instance.rows := Some (ofZ 512);
     Instance.columns := Some (ofZ 512);
     Instance.bitsAllocated := Some (ofZ 16);
     Instance.bitsStored := Some (ofZ 12);
     Instance.pixelRepresentation := Some (ofZ 0);
     Instance.photometricInterpretation := Some "MONOCHROME2";
     Instance.rescaleSlope := Some (ofZ 1);
     Instance.rescaleIntercept := Some (ofZ 0);
     Instance.windowCenter := Some (WScalar (ofZ 40));
     Instance.windowWidth := Some (WScalar (ofZ 400));
     Instance.numberOfFrames := None;
     Instance.transferSyntaxUID := Some "1.2.840.10008.1.2.1" |}.

Definition at_z (q : Q) : option (list number) := Some [ofZ 0; ofZ 0; Fin q].

(** Three slices less than the tolerance apart from one to the next, but
    more than the tolerance apart from the first to the last, numbered
    against their positions. *)
Definition nearA : DicomInstance :=
  sampleInstance "a.dcm" (at_z (1 # 512)) None (Some (ofZ 1)) None.
Definition nearB : DicomInstance :=
  sampleInstance "b.dcm" (at_z (1 # 1024)) None (Some (ofZ 2)) None.
Definition nearC : DicomInstance :=
  sampleInstance "c.dcm" (at_z 0) None (Some (ofZ 3)) None.

(** Three slices ten units apart. *)
Definition farA : DicomInstance :=
  sampleInstance "a.dcm" (at_z 10) None (Some (ofZ 3)) None.
Definition farB : DicomInstance :=
  sampleInstance "b.dcm" (at_z 20) None (Some (ofZ 2)) None.
Definition farC : DicomInstance :=
  sampleInstance "c.dcm" (at_z 30) None (Some (ofZ 1)) None.

(** Two positioned slices around an instance that carries no position. *)
Definition mixedA : DicomInstance :=
  sampleInstance "a.dcm" (at_z 10) None None None.
Definition mixedB : DicomInstance :=
  sampleInstance "b.dcm" None None None None.
Definition mixedC : DicomInstance :=
  sampleInstance "c.dcm" (at_z 5) None None None.

(** Two instances with the same instance number and different acquisition
    numbers and paths. *)
Definition tieA : DicomInstance :=
  sampleInstance "a.dcm" None None (Some (ofZ 5)) (Some (ofZ 2)).
Definition tieB : DicomInstance :=
  sampleInstance "b.dcm" None None (Some (ofZ 5)) (Some (ofZ 1)).

(** A data set whose elements are the given texts, all readable. *)
Definition textDataSet (fields : list (string * string)) : DataSet :=
  {| ds_string := fun tag => Normal (dictionaryLookup fields tag);
     ds_uint16 := fun _ => Normal None;
     ds_elements :=
       map (fun f => (fst f, {| el_vr := None;
                                el_length := Z.of_nat (String.length (snd f));
                                el_dataOffset := 0 |})) fields |}.

(** The three identifiers, a two-valued window center whose second value
    is not a number, and a window width. *)
Definition brokenWindowDataSet : DataSet :=
  textDataSet [ ("x0020000d", "1.2.3"); ("x0020000e", "1.2.3.4");
                ("x00080018", "1.2.3.4.5");
                ("x00281050", "40\abc"); ("x00281051", "400") ].

(** A slice location written as [Infinity]. *)
Definition infiniteSliceDataSet : DataSet :=
  textDataSet [ ("x0020000d", "1.2.3"); ("x0020000e", "1.2.3.4");
                ("x00080018", "1.2.3.4.5"); ("x00201041", "Infinity") ].

(** Well-formed fields, but no series UID. *)
Definition noSeriesDataSet : DataSet :=
  textDataSet [ ("x0020000d", "1.2.3"); ("x00080018", "1.2.3.4.5");
                ("x00200013", "7"); ("x00201041", "12.5");
                ("x00080060", "CT"); ("x00100010", "DOE^JANE") ].

(** A frame of one row and two columns of unsigned 16-bit samples, 600 and
    0, with rescale slope 2 and intercept -1000 and the given window
    texts. *)
Definition framePixels : list Byte.byte := [Byte.x58; Byte.x02; Byte.x00; Byte.x00].

Definition frameDataSet (wcText wwText : string) : DataSet :=
  {| ds_string := fun tag =>
       Normal (dictionaryLookup
                 [ ("x00281053", "2"); ("x00281052", "-1000");
                   ("x00281050", wcText); ("x00281051", wwText) ] tag);
     ds_uint16 := fun tag =>
       Normal (if String.eqb tag "x00280010" then Some 1
               else if String.eqb tag "x00280011" then Some 2
               else if String.eqb tag "x00280100" then Some 16
               else if String.eqb tag "x00280101" then Some 16
               else None);
     ds_elements :=
       [ ("x7fe00010", {| el_vr := Some "OW"; el_length := 4; el_dataOffset := 0 |}) ] |}.

(** The text of an identifier in a buffer: [None] when the buffer does not
    parse, the element is absent, or reading it throws. *)
Definition uidText (parseDicom : list Byte.byte -> completion DataSet)
    (arrayBuffer : list Byte.byte) (tag : string) : option string :=
  match parseDicom arrayBuffer with
  | Normal dataSet =>
      match ds_string dataSet tag with
      | Normal (Some v) => Some v
      | _ => None
      end
  | Throw => None
  end.

(** C9 as the specification words it, at one field of one data set. *)
Definition absentUnlessFinite (dataSet : DataSet) (tag : string) : Prop :=
  forall s, ds_string dataSet tag = Normal (Some s) ->
            isFinite (parseFloat s) = false ->
            getNumber dataSet tag = Normal None.

(** C7's first half as the specification words it: a width that is not
    strictly positive is replaced by the default before the transform, so
    that the width the frame is rendered with is strictly positive. *)
Definition usesPositiveWidth (viewerState : ViewerState) (wcStr wwStr : option string)
  : Prop :=
  (snd (selectWindow viewerState wcStr wwStr) >? ofZ 0)%num = true.

(** A decoded file record with the given identifiers and no descriptive
    field (the [createParsedFile] of the test suite). *)
Definition sampleFile (studyUID seriesUID sopUID : string) : ParsedDicomFile :=
  {| Parsed.filePath := "/path/to/" ++ sopUID ++ ".dcm";
     Parsed.studyInstanceUID := studyUID;
     Parsed.seriesInstanceUID := seriesUID;
     Parsed.sopInstanceUID := sopUID;
     Parsed.instance :=
       sampleInstance ("/path/to/" ++ sopUID ++ ".dcm") None None None None;
     Parsed.studyInfo :=
       {| StudyInfo.studyInstanceUID := Some studyUID;
          StudyInfo.studyDate := None;
          StudyInfo.studyTime := None;
          StudyInfo.studyDescription := None;
          StudyInfo.patientName := None;
          StudyInfo.patientId := None;
          StudyInfo.patientBirthDate := None;
          StudyInfo.patientSex := None;
          StudyInfo.accessionNumber := None;
          StudyInfo.institutionName := None;
          StudyInfo.referringPhysicianName := None |};
     Parsed.seriesInfo :=
       {| SeriesInfo.seriesInstanceUID := Some seriesUID;
          SeriesInfo.seriesNumber := None;
          SeriesInfo.seriesDescription := None;
          SeriesInfo.modality := Some "OT";
          SeriesInfo.studyInstanceUID := Some studyUID |};
     Parsed.metadata := ∅ |}.

(** ** Vocabulary of the further properties *)

(** The value of an identifier in a buffer as the gate takes it: trimmed
    and not empty. *)
Definition uidValue (parseDicom : list Byte.byte -> completion DataSet)
    (arrayBuffer : list Byte.byte) (tag : string) : option string :=
  match parseDicom arrayBuffer with
  | Normal dataSet =>
      match ds_string dataSet tag with
      | Normal (Some v) => if nonEmpty (trim v) then Some (trim v) else None
      | _ => None
      end
  | Throw => None
  end.

Definition notNaN (x : option number) : Prop :=
  match x with Some v => isNaN v = false | None => True end.

(** What the getters answer, as values. *)
Definition textOf (dataSet : DataSet) (tag : string) : option string :=
  match ds_string dataSet tag with
  | Normal (Some v) => Some (trim v)
  | _ => None
  end.

Definition numberOf (dataSet : DataSet) (tag : string) : option number :=
  match ds_string dataSet tag with
  | Normal (Some s) => if isNaN (parseFloat s) then None else Some (parseFloat s)
  | _ => None
  end.

Definition intOf (dataSet : DataSet) (tag : string) : option number :=
  match ds_uint16 dataSet tag with
  | Normal (Some v) => Some (ofZ v)
  | _ => None
  end.

Definition vectorOf (dataSet : DataSet) (tag : string) : option (list number) :=
  match ds_string dataSet tag with
  | Normal (Some s) =>
      let parts := map (fun s => parseFloat (trim s)) (split backslash s) in
      if existsb isNaN parts then None else Some parts
  | _ => None
  end.

(** The record of a data set that passes the gate, field by field. *)
Definition decodedInstance (dataSet : DataSet) (filePath sopUID : string)
  : DicomInstance :=
  {| Instance.filePath := filePath;
     Instance.sopInstanceUID := sopUID;
     Instance.instanceNumber := numberOf dataSet "x00200013";
     Instance.imagePositionPatient := vectorOf dataSet "x00200032";
     Instance.sliceLocation := numberOf dataSet "x00201041";
     Instance.acquisitionNumber := numberOf dataSet "x00200012";
     Instance.rows := intOf dataSet "x00280010";
     Instance.columns := intOf dataSet "x00280011";
     Instance.bitsAllocated := intOf dataSet "x00280100";
     Instance.bitsStored := intOf dataSet "x00280101";
     Instance.pixelRepresentation := intOf dataSet "x00280103";
     Instance.photometricInterpretation := textOf dataSet "x00280004";
     Instance.rescaleSlope := Some (orDefault (numberOf dataSet "x00281053") (ofZ 1));
     Instance.rescaleIntercept := Some (orDefault (numberOf dataSet "x00281052") (ofZ 0));
     Instance.windowCenter := windowValue (textOf dataSet "x00281050");
     Instance.windowWidth := windowValue (textOf dataSet "x00281051");
     Instance.numberOfFrames := numberOf dataSet "x00280008";
     Instance.transferSyntaxUID := textOf dataSet "x00020010" |}.

Definition decodedStudyInfo (dataSet : DataSet) (studyUID : string) : StudyInfo.t :=
  {| StudyInfo.studyInstanceUID := Some studyUID;
     StudyInfo.studyDate := textOf dataSet "x00080020";
     StudyInfo.studyTime := textOf dataSet "x00080030";
     StudyInfo.studyDescription := textOf dataSet "x00081030";
     StudyInfo.patientName := formatPatientName (textOf dataSet "x00100010");
     StudyInfo.patientId := textOf dataSet "x00100020";
     StudyInfo.patientBirthDate := textOf dataSet "x00100030";
     StudyInfo.patientSex := textOf dataSet "x00100040";
     StudyInfo.accessionNumber := textOf dataSet "x00080050";
     StudyInfo.institutionName := textOf dataSet "x00080080";
     StudyInfo.referringPhysicianName := textOf dataSet "x00080090" |}.

Definition decodedSeriesInfo (dataSet : DataSet) (studyUID seriesUID : string)
  : SeriesInfo.t :=
  {| SeriesInfo.seriesInstanceUID := Some seriesUID;
     SeriesInfo.seriesNumber := numberOf dataSet "x00200011";
     SeriesInfo.seriesDescription := textOf dataSet "x0008103e";
     SeriesInfo.modality := Some (orDefault (textOf dataSet "x00080060") "OT");
     SeriesInfo.studyInstanceUID := Some studyUID |}.

(** *** The tag map *)

Definition pixelDataTag : string := "x7fe00010".

(** The element tags the tag map is built from. *)
Definition metadataTags (elements : list (string * Element)) : list string :=
  filter (fun t => t <> pixelDataTag) (map fst elements).

(** *** Texts *)

(** No white space at the start. *)
Definition startsClean (s : string) : Prop :=
  match s with
  | String c _ => isWhiteSpace c = false
  | EmptyString => True
  end.

(** *** The order of the sorted instances *)

(** [a] is not after [b]: the comparator's verdict on them is not
    positive. *)
Definition notAfter (a b : DicomInstance) : Prop :=
  (compareInstances a b >? ofZ 0)%num = false.

(** Every element of a list and its successor are related. *)
Definition neighbours {A} (R : A -> A -> Prop) (l : list A) : Prop :=
  forall (i : nat) (a b : A), l !! i = Some a -> l !! S i = Some b -> R a b.

(** An instance ordered by its instance number alone: no position, no
    slice location, a finite instance number. *)
Definition numberedOnly (a : DicomInstance) (n : Q) : Prop :=
  Instance.imagePositionPatient a = None
  /\ Instance.sliceLocation a = None
  /\ Instance.instanceNumber a = Some (Fin n).

(** An instance positioned at a finite Z. *)
Definition positionedAt (a : DicomInstance) (z : Q) : Prop :=
  zKey a = Some (Fin z).

(** *** The grouping *)

Definition filesOfStudy (k : string) (files : list ParsedDicomFile)
  : list ParsedDicomFile :=
  filter (fun f => Parsed.studyInstanceUID f = k) files.

Definition filesOfSeries (k s : string) (files : list ParsedDicomFile)
  : list ParsedDicomFile :=
  filter (fun f => Parsed.studyInstanceUID f = k /\ Parsed.seriesInstanceUID f = s) files.

(** The series [s] of the study [k] before the sort: created from the
    first file of the series, holding the instances of all its files. *)
Definition seriesOf (k s : string) (files : list ParsedDicomFile) : option DicomSeries :=
  match filesOfSeries k s files with
  | [] => None
  | g :: _ => Some (setInstances (newSeries g)
                      (map Parsed.instance (filesOfSeries k s files)))
  end.

(** What the loop over the files has built for the key [k]. *)
Definition studyBuilt (k : string) (files : list ParsedDicomFile)
    (found : option DicomStudy) : Prop :=
  match filesOfStudy k files with
  | [] => found = None
  | f0 :: _ =>
      exists study, found = Some study
        /\ setSeries study ∅ = newStudy f0
        /\ forall s, Study.series study !! s = seriesOf k s files
  end.

(** *** The viewport *)

(** The coordinates of a pointer event are finite. *)
Definition finiteEvent (e : ViewportEvent) : Prop :=
  match e with
  | MouseDown x y | MouseMove _ x y => isFinite x = true /\ isFinite y = true
  | _ => True
  end.

(** The zoom factor is between 0.1 and 10, and pan and the last pointer
    position are finite. *)
Definition viewportOk (st : Pointer * ViewerState) : Prop :=
  isFinite (lastX (fst st)) = true
  /\ isFinite (lastY (fst st)) = true
  /\ isFinite (Viewer.panX (snd st)) = true
  /\ isFinite (Viewer.panY (snd st)) = true
  /\ exists z, Viewer.zoom (snd st) = Fin z /\ (1 # 10 <= z <= 10)%Q.

(** *** The scan *)

(** The number of batches of a scan. *)
Definition batchCount (files : list string) : nat :=
  (length files + (BATCH_SIZE - 1)) / BATCH_SIZE.

(** ** More sample data *)

(** The record decoded from [brokenWindowDataSet]. *)
Definition decodedSample : ParsedDicomFile :=
  default (sampleFile EmptyString EmptyString EmptyString)
    (match parseDicomFile (fun _ => Normal brokenWindowDataSet) [] "a.dcm" with
     | Normal r => r
     | Throw => None
     end).

(** The three identifiers, a sequence, a long binary element, an element
    that cannot be read, and the pixel data. *)
Definition placeholderDataSet : DataSet :=
  {| ds_string := fun tag =>
       if String.eqb tag "x00291010" then Throw
       else Normal (dictionaryLookup
                      [ ("x0020000d", "1.2.3"); ("x0020000e", "1.2.3.4");
                        ("x00080018", "1.2.3.4.5") ] tag);
     ds_uint16 := fun _ => Normal None;
     ds_elements :=
       [ ("x0020000d", {| el_vr := Some "UI"; el_length := 6; el_dataOffset := 0 |});
         ("x00081140", {| el_vr := Some "SQ"; el_length := 100; el_dataOffset := 6 |});
         ("x00420011", {| el_vr := Some "OB"; el_length := 1000; el_dataOffset := 106 |});
         ("x00291010", {| el_vr := None; el_length := 8; el_dataOffset := 1106 |});
         ("x7fe00010", {| el_vr := Some "OW"; el_length := 4; el_dataOffset := 1114 |}) ] |}.

Definition decodedPlaceholders : ParsedDicomFile :=
  default (sampleFile EmptyString EmptyString EmptyString)
    (match parseDicomFile (fun _ => Normal placeholderDataSet) [] "p.dcm" with
     | Normal r => r
     | Throw => None
     end).

(** Two files of one series, and the tree grouped from them. *)
Definition sampleFiles : list ParsedDicomFile :=
  [ sampleFile "study1" "series1" "sop1"; sampleFile "study1" "series1" "sop2" ].

Definition sampleStudy : DicomStudy :=
  default (newStudy (sampleFile "study1" "series1" "sop1"))
    (groupDicomFiles sampleFiles !! "study1").

Definition sampleSeries : DicomSeries :=
  default (newSeries (sampleFile "study1" "series1" "sop1"))
    (Study.series sampleStudy !! "series1").

(** The store after the tree is stored and the series is selected. *)
Definition sampleStore : AppState :=
  {| Store.studies := groupDicomFiles sampleFiles;
     Store.selectedStudyUID := Some "study1";
     Store.selectedSeriesUID := Some "series1";
     Store.selectedInstanceIndex := 1 |}.

(** Three instances ordered by instance number alone. *)
Definition numberedA : DicomInstance :=
  sampleInstance "a.dcm" None None (Some (ofZ 3)) None.
Definition numberedB : DicomInstance :=
  sampleInstance "b.dcm" None None (Some (ofZ 1)) None.
Definition numberedC : DicomInstance :=
  sampleInstance "c.dcm" None None (Some (ofZ 2)) None.

(** A file system in which every file reads as [brokenWindowDataSet], but
    [bad.dcm] cannot be read. *)
Definition sampleReadFile (filePath : string) : completion ReadResult :=
  if String.eqb filePath "bad.dcm" then Throw
  else Normal {| rr_success := true; rr_data := Some [] |}.

(** * Properties *)

(** ** Numbers *)

Ltac qcmp :=
  repeat match goal with
  | |- context [Qcompare ?p ?q] => destruct (Qcompare_spec p q)
  | H : context [Qcompare ?p ?q] |- _ => destruct (Qcompare_spec p q)
  end.

Lemma sub_opposite (u v : number) : opposite (u - v)%num (v - u)%num.
Proof.
  destruct u as [|s|p], v as [|t|q]; simpl; try exact I; try reflexivity.
  - destruct s, t; simpl; auto.
  - now destruct s.
  - ring.
Qed.

Lemma abs_opposite (x y t : number) :
  opposite x y -> (abs x >? t)%num = (abs y >? t)%num.
Proof.
  destruct x as [|s|p], y as [|s'|q]; simpl; try contradiction; auto.
  intros H. unfold gtb. destruct t as [|b|r]; simpl; auto.
  assert (Qabs p == Qabs q) as E by (rewrite H; apply Qabs_opp).
  rewrite E. reflexivity.
Qed.

Lemma positive_opposite (x y : number) :
  opposite x y -> (x >? ofZ 0)%num = true -> (y >? ofZ 0)%num = false.
Proof.
  destruct x as [|s|p], y as [|s'|q]; simpl; try contradiction; auto.
  - intros ->. unfold gtb; simpl. now destruct s'.
  - intros H. unfold gtb, ofZ; simpl. qcmp; auto; try discriminate.
    exfalso. unfold inject_Z in *. lra.
Qed.

Lemma localeCompare_opposite (a b : string) :
  opposite (localeCompare a b) (localeCompare b a).
Proof.
  unfold localeCompare. rewrite (String.compare_antisym a b).
  destruct (String.compare b a); simpl; reflexivity.
Qed.

(** ** The sort *)

#[local] Arguments Num.gtb : simpl never.
#[local] Arguments Num.ltb : simpl never.
#[local] Arguments Num.leb : simpl never.
#[local] Arguments Num.geb : simpl never.

Section SortFacts.

Context {A : Type} (comparefn : A -> A -> number).

Lemma insertSorted_perm (x : A) (l : list A) :
  Permutation (x :: l) (insertSorted comparefn x l).
Proof.
  induction l as [|y l IH]; simpl.
  - reflexivity.
  - destruct (sortCompare comparefn x y >? ofZ 0)%num.
    + etransitivity; [apply perm_swap | now apply perm_skip].
    + reflexivity.
Qed.

Lemma sort_perm (l : list A) : Permutation l (sort comparefn l).
Proof.
  induction l as [|x l IH]; simpl.
  - constructor.
  - etransitivity; [apply perm_skip, IH | apply insertSorted_perm].
Qed.

Lemma sort_fixed (l : list A) :
  Sorted (inOrder comparefn) l -> sort comparefn l = l.
Proof.
  induction 1 as [|x l Hs IH Hd]; simpl.
  - reflexivity.
  - change (insertSorted comparefn x (sort comparefn l) = x :: l). rewrite IH.
    destruct Hd as [|y l Hxy]; simpl.
    + reflexivity.
    + unfold inOrder in Hxy. now rewrite Hxy.
Qed.

(** A verdict and the verdict on the swapped pair are never both
    positive. *)
Hypothesis comparefn_swap :
  forall x y, (sortCompare comparefn x y >? ofZ 0)%num = true -> inOrder comparefn y x.

Lemma insertSorted_sorted (x : A) (l : list A) :
  Sorted (inOrder comparefn) l -> Sorted (inOrder comparefn) (insertSorted comparefn x l).
Proof.
  induction 1 as [|y l Hs IH Hd]; simpl.
  - repeat constructor.
  - destruct (sortCompare comparefn x y >? ofZ 0)%num eqn:E.
    + constructor; [exact IH|].
      destruct Hd as [|z l Hyz]; simpl.
      * constructor. now apply comparefn_swap.
      * destruct (sortCompare comparefn x z >? ofZ 0)%num;
          constructor; [exact Hyz | now apply comparefn_swap].
    + constructor; [now constructor | now constructor].
Qed.

Lemma sort_sorted (l : list A) : Sorted (inOrder comparefn) (sort comparefn l).
Proof.
  induction l as [|x l IH]; simpl.
  - constructor.
  - now apply insertSorted_sorted.
Qed.

Lemma sort_idempotent (l : list A) :
  sort comparefn (sort comparefn l) = sort comparefn l.
Proof. apply sort_fixed, sort_sorted. Qed.

End SortFacts.

(** ** Instance ordering *)

Lemma toleranceLevel_swap (x y : option number) :
  match toleranceLevel x y, toleranceLevel y x with
  | Some d, Some d' => opposite d d'
  | None, None => True
  | _, _ => False
  end.
Proof.
  destruct x as [u|], y as [v|]; simpl; auto.
  rewrite (abs_opposite _ _ tolerance (sub_opposite u v)).
  destruct (abs (v - u) >? tolerance)%num; [apply sub_opposite | exact I].
Qed.

Lemma exactLevel_swap (x y : option number) :
  match exactLevel x y, exactLevel y x with
  | Some d, Some d' => opposite d d'
  | None, None => True
  | _, _ => False
  end.
Proof.
  destruct x as [u|], y as [v|]; simpl; auto. apply sub_opposite.
Qed.

Lemma compareInstances_opposite (a b : DicomInstance) :
  opposite (compareInstances a b) (compareInstances b a).
Proof.
  unfold compareInstances.
  pose proof (toleranceLevel_swap
                (zCoordinate <$> Instance.imagePositionPatient a)
                (zCoordinate <$> Instance.imagePositionPatient b)) as H1.
  destruct (toleranceLevel (zCoordinate <$> Instance.imagePositionPatient a) _),
           (toleranceLevel (zCoordinate <$> Instance.imagePositionPatient b) _);
    try contradiction; auto.
  pose proof (toleranceLevel_swap (Instance.sliceLocation a)
                                  (Instance.sliceLocation b)) as H2.
  destruct (toleranceLevel (Instance.sliceLocation a) _),
           (toleranceLevel (Instance.sliceLocation b) _);
    try contradiction; auto.
  pose proof (exactLevel_swap (Instance.instanceNumber a)
                              (Instance.instanceNumber b)) as H3.
  destruct (exactLevel (Instance.instanceNumber a) _),
           (exactLevel (Instance.instanceNumber b) _);
    try contradiction; auto.
  pose proof (exactLevel_swap (Instance.acquisitionNumber a)
                              (Instance.acquisitionNumber b)) as H4.
  destruct (exactLevel (Instance.acquisitionNumber a) _),
           (exactLevel (Instance.acquisitionNumber b) _);
    try contradiction; auto.
  apply localeCompare_opposite.
Qed.

Lemma compareInstances_swap (a b : DicomInstance) :
  (sortCompare compareInstances a b >? ofZ 0)%num = true ->
  inOrder compareInstances b a.
Proof.
  unfold inOrder, sortCompare.
  pose proof (compareInstances_opposite a b) as H.
  destruct (compareInstances a b) as [|s|p] eqn:Ea,
           (compareInstances b a) as [|s'|q] eqn:Eb;
    simpl in *; try contradiction; try discriminate.
  - intros Hp. apply (positive_opposite (Inf s) (Inf s')); assumption.
  - intros Hp. apply (positive_opposite (Fin p) (Fin q)); assumption.
Qed.

(** C3.  [sortInstances] returns a permutation of its input: the same
    instances, hence the same instance UIDs with their multiplicities and
    the same number of them; and sorting its output again changes
    nothing. *)
Theorem sortInstances_permutation_idempotent (instances : list DicomInstance) :
  Permutation instances (sortInstances instances)
  /\ Permutation (map Instance.sopInstanceUID instances)
                 (map Instance.sopInstanceUID (sortInstances instances))
  /\ length (sortInstances instances) = length instances
  /\ sortInstances (sortInstances instances) = sortInstances instances.
Proof.
  pose proof (sort_perm compareInstances instances) as P.
  repeat split.
  - exact P.
  - apply Permutation_map, P.
  - symmetry. apply Permutation_length, P.
  - apply sort_idempotent, compareInstances_swap.
Qed.

(** *** Transitivity on homogeneous, separated instances *)

Lemma leb_Fin (p q : Q) : (Fin p <=? Fin q)%num = true <-> Qle p q.
Proof.
  unfold leb. qcmp; split; intros; try discriminate; auto; try lra; exfalso; lra.
Qed.

Lemma gt_tolerance_Fin (p q : Q) :
  (abs (Fin p - Fin q) >? tolerance)%num = true
  <-> (1 # 1000 < p - q \/ 1 # 1000 < q - p)%Q.
Proof.
  unfold gtb, ltb, tolerance, abs, sub; cbv beta iota.
  destruct (Qcompare_spec (1 # 1000) (Qabs (p - q))) as [E|E|E]; split;
    intros H; try discriminate; auto; revert E H;
    apply Qabs_case; intros; try lra; exfalso; lra.
Qed.

Lemma compareInstances_steps (a b : DicomInstance) :
  compareInstances a b =
  toleranceStep (zKey a) (zKey b)
    (toleranceStep (Instance.sliceLocation a) (Instance.sliceLocation b)
       (exactStep (Instance.instanceNumber a) (Instance.instanceNumber b)
          (exactStep (Instance.acquisitionNumber a) (Instance.acquisitionNumber b)
             (localeCompare (Instance.filePath a) (Instance.filePath b))))).
Proof. reflexivity. Qed.

Section Steps.

Variables x y z : option number.
Variables rxy ryz rxz : number.

Hypothesis carried_xy : carried x = carried y.
Hypothesis carried_yz : carried y = carried z.

Lemma exactStep_trans :
  ((rxy <=? ofZ 0)%num = true -> (ryz <=? ofZ 0)%num = true ->
   (rxz <=? ofZ 0)%num = true) ->
  (exactStep x y rxy <=? ofZ 0)%num = true ->
  (exactStep y z ryz <=? ofZ 0)%num = true ->
  (exactStep x z rxz <=? ofZ 0)%num = true.
Proof.
  destruct x as [u|], y as [v|], z as [w|]; try discriminate; auto.
  unfold exactStep, exactLevel. intros _.
  destruct u as [|su|p], v as [|sv|q], w as [|sw|r];
    try (intros H; discriminate H); try (intros _ H; discriminate H).
  all: try (destruct su); try (destruct sv); try (destruct sw);
    cbn [sub Bool.eqb negb];
    try (intros H; discriminate H); try (intros _ H; discriminate H);
    try (intros _ _; reflexivity).
  unfold ofZ. rewrite !leb_Fin. unfold inject_Z. lra.
Qed.

Lemma toleranceStep_trans :
  apartOrEqual x y -> apartOrEqual y z -> apartOrEqual x z ->
  ((rxy <=? ofZ 0)%num = true -> (ryz <=? ofZ 0)%num = true ->
   (rxz <=? ofZ 0)%num = true) ->
  (toleranceStep x y rxy <=? ofZ 0)%num = true ->
  (toleranceStep y z ryz <=? ofZ 0)%num = true ->
  (toleranceStep x z rxz <=? ofZ 0)%num = true.
Proof.
  destruct x as [u|], y as [v|], z as [w|]; try discriminate; auto.
  unfold toleranceStep, toleranceLevel, apartOrEqual.
  destruct u as [|su|p], v as [|sv|q], w as [|sw|r].
  all: try (destruct su); try (destruct sv); try (destruct sw).
  all: try (intros [H|H]; discriminate H).
  all: try (intros _ [H|H]; discriminate H).
  all: try (intros _ _ [H|H]; discriminate H).
  all: cbn [sub abs Bool.eqb negb];
    try change (Inf false >? tolerance)%num with true;
    try change (NaN >? tolerance)%num with false;
    cbv beta iota.
  all: try (intros _ _ _ _ H; discriminate H).
  all: try (intros _ _ _ _ _ H; discriminate H).
  all: try (intros _ _ _ _ _ _; reflexivity).
  all: try (intros _ _ _ Hrest; exact Hrest).
  all: try (intros _ _ _ _; destruct (abs (Fin _) >? tolerance)%num; intros; assumption).
  change (Fin (Qabs (p - q))) with (abs (Fin p - Fin q)%num).
  change (Fin (Qabs (q - r))) with (abs (Fin q - Fin r)%num).
  change (Fin (Qabs (p - r))) with (abs (Fin p - Fin r)%num).
  rewrite !gt_tolerance_Fin.
  intros Sxy Syz Sxz Hrest.
  destruct (abs (Fin p - Fin q) >? tolerance)%num eqn:Epq;
  destruct (abs (Fin q - Fin r) >? tolerance)%num eqn:Eqr;
  destruct (abs (Fin p - Fin r) >? tolerance)%num eqn:Epr;
    try (apply gt_tolerance_Fin in Epq);
    try (apply gt_tolerance_Fin in Eqr);
    try (apply gt_tolerance_Fin in Epr);
    repeat match goal with
    | H : _ \/ Num.eqb _ _ = true |- _ =>
        destruct H as [H|H];
        [ try (apply gt_tolerance_Fin in H); try congruence
        | simpl in H; apply Qeq_bool_eq in H ]
    end;
    simpl; unfold ofZ; rewrite ?leb_Fin; unfold inject_Z; intros; auto;
    try lra.
Qed.

End Steps.

Lemma localeCompare_le (a b : string) :
  (localeCompare a b <=? ofZ 0)%num = true <-> String.compare a b <> Gt.
Proof.
  unfold localeCompare.
  destruct (String.compare a b); split; intros H;
    try reflexivity; try discriminate; try congruence.
Qed.

Lemma compare_refl (s : string) : String.compare s s = Eq.
Proof. exact (proj2 (OrderedTypeEx.String_as_OT.cmp_eq s s) eq_refl). Qed.

Lemma localeCompare_trans (a b c : string) :
  (localeCompare a b <=? ofZ 0)%num = true ->
  (localeCompare b c <=? ofZ 0)%num = true ->
  (localeCompare a c <=? ofZ 0)%num = true.
Proof.
  rewrite !localeCompare_le.
  destruct (String.compare a b) eqn:Eab; [| |congruence];
    destruct (String.compare b c) eqn:Ebc; try congruence; intros _ _.
  - apply String.compare_eq_iff in Eab, Ebc. subst.
    rewrite compare_refl. discriminate.
  - apply String.compare_eq_iff in Eab. subst. rewrite Ebc. discriminate.
  - apply String.compare_eq_iff in Ebc. subst. rewrite Eab. discriminate.
  - apply OrderedTypeEx.String_as_OT.cmp_lt in Eab, Ebc.
    pose proof (OrderedTypeEx.String_as_OT.lt_trans _ _ _ Eab Ebc) as H.
    apply OrderedTypeEx.String_as_OT.cmp_lt in H.
    unfold OrderedTypeEx.String_as_OT.cmp in H. rewrite H. discriminate.
Qed.




(** The presence rule breaks transitivity as well: an instance without a
    position compares by path with two positioned ones that compare by
    position. *)
Lemma compareInstances_not_transitive_mixed_keys :
  compareLe mixedA mixedB = true /\ compareLe mixedB mixedC = true
  /\ compareLe mixedA mixedC = false.
Proof. repeat split. Qed.

(** Once the tolerance levels have let a pair through, two instance
    numbers decide, whatever they are. *)
Lemma instanceNumber_level_decides (a b : DicomInstance) (n m : number) :
  toleranceLevel (zKey a) (zKey b) = None ->
  toleranceLevel (Instance.sliceLocation a) (Instance.sliceLocation b) = None ->
  Instance.instanceNumber a = Some n ->
  Instance.instanceNumber b = Some m ->
  compareInstances a b = (n - m)%num.
Proof.
  intros Hz Hs Ha Hb. rewrite compareInstances_steps.
  unfold toleranceStep, exactStep. now rewrite Hz, Hs, Ha, Hb.
Qed.

(** C5.  The instance-number level ends the cascade whenever both
    instances carry an instance number, also on a tie: two instances
    numbered 5 compare equal although their acquisition numbers (2 and 1)
    and their paths differ, and the later levels would not have said
    "equal". *)
Theorem instance_number_tie_is_final :
  compareInstances tieA tieB = (ofZ 5 - ofZ 5)%num
  /\ Num.eqb (compareInstances tieA tieB) (ofZ 0) = true
  /\ exactLevel (Instance.acquisitionNumber tieA) (Instance.acquisitionNumber tieB)
     = Some (ofZ 2 - ofZ 1)%num
  /\ localeCompare (Instance.filePath tieA) (Instance.filePath tieB) = ofZ (-1).
Proof. repeat split. Qed.

(** ** Field decoding *)

Lemma getString_spec (dataSet : DataSet) (tag : string) :
  getString dataSet tag =
  Normal (match ds_string dataSet tag with
          | Normal (Some v) => Some (trim v)
          | _ => None
          end).
Proof. unfold getString. destruct (ds_string dataSet tag) as [[v|]|]; reflexivity. Qed.

Lemma getNumber_spec (dataSet : DataSet) (tag : string) :
  getNumber dataSet tag =
  Normal (match ds_string dataSet tag with
          | Normal (Some s) => if isNaN (parseFloat s) then None else Some (parseFloat s)
          | _ => None
          end).
Proof. unfold getNumber. destruct (ds_string dataSet tag) as [[v|]|]; reflexivity. Qed.

Lemma getInt_spec (dataSet : DataSet) (tag : string) :
  getInt dataSet tag =
  Normal (match ds_uint16 dataSet tag with
          | Normal (Some v) => Some (ofZ v)
          | _ => None
          end).
Proof. unfold getInt. destruct (ds_uint16 dataSet tag) as [[v|]|]; reflexivity. Qed.

Lemma getNumberArray_spec (dataSet : DataSet) (tag : string) :
  getNumberArray dataSet tag =
  Normal (match ds_string dataSet tag with
          | Normal (Some s) =>
              let parts := map (fun s => parseFloat (trim s)) (split backslash s) in
              if existsb isNaN parts then None else Some parts
          | _ => None
          end).
Proof.
  unfold getNumberArray. destruct (ds_string dataSet tag) as [[v|]|]; try reflexivity.
  simpl. destruct (existsb isNaN _); reflexivity.
Qed.

(** The position vector is all or nothing. *)
Lemma getNumberArray_no_NaN (dataSet : DataSet) (tag : string) (l : list number) :
  getNumberArray dataSet tag = Normal (Some l) -> existsb isNaN l = false.
Proof.
  rewrite getNumberArray_spec. destruct (ds_string dataSet tag) as [[v|]|];
    try discriminate.
  cbv zeta. destruct (existsb isNaN _) eqn:E; try discriminate.
  intros H. injection H as <-. exact E.
Qed.

Lemma tagValue_normal (dataSet : DataSet) (tag : string) (element : Element) :
  exists v, tagValue dataSet tag element = Normal v.
Proof.
  unfold tagValue.
  destruct (bool_decide _); [eauto|].
  destruct (Z.ltb _ _); [eauto|].
  destruct (ds_string dataSet tag) as [[v|]|]; simpl; eauto.
Qed.

Lemma extractMetadata_normal (dataSet : DataSet) (elements : list (string * Element))
    (metadata : gmap string DicomTag) :
  exists m, extractMetadata dataSet elements metadata = Normal m.
Proof.
  revert metadata. induction elements as [|[tag element] rest IH]; intros metadata.
  - simpl. eauto.
  - simpl. destruct (String.eqb tag "x7fe00010"); [apply IH|].
    destruct (tagValue_normal dataSet tag element) as [v ->]. simpl. apply IH.
Qed.

Lemma bind_Normal {A B} (a : A) (f : A -> completion B) : (Normal a ≫= f) = f a.
Proof. reflexivity. Qed.

(** C9, as the code has it.  A scalar numeric field whose text does not
    parse (NaN) is decoded as absent; reading it never fails and never
    yields NaN; a text that parses to a number, an infinity included, is
    decoded as that number. *)
Theorem getNumber_absent_when_NaN (dataSet : DataSet) (tag s : string) :
  ds_string dataSet tag = Normal (Some s) ->
  (isNaN (parseFloat s) = true -> getNumber dataSet tag = Normal None)
  /\ (isNaN (parseFloat s) = false ->
      getNumber dataSet tag = Normal (Some (parseFloat s)))
  /\ getNumber dataSet tag <> Normal (Some NaN)
  /\ getNumber dataSet tag <> Throw.
Proof.
  intros H. rewrite getNumber_spec, H.
  destruct (parseFloat s); simpl; repeat split; intros; congruence.
Qed.

Lemma getNumber_absent_when_NaN_witness :
  getNumber infiniteSliceDataSet "x00201041" = Normal (Some (Inf false)).
Proof.
  apply (proj1 (proj2 (getNumber_absent_when_NaN
                         infiniteSliceDataSet "x00201041" "Infinity" eq_refl))).
  reflexivity.
Defined.

(** C9 as stated fails: the text [Infinity] does not parse as a finite
    number and is not decoded as absent. *)
Lemma getNumber_keeps_infinity :
  ~ absentUnlessFinite infiniteSliceDataSet "x00201041".
Proof.
  intros H. specialize (H "Infinity" eq_refl eq_refl). discriminate H.
Qed.

(** Without a text, or when the read throws, the field is absent. *)
Lemma getNumber_unreadable (dataSet : DataSet) (tag : string) :
  ds_string dataSet tag = Normal None \/ ds_string dataSet tag = Throw ->
  getNumber dataSet tag = Normal None.
Proof. rewrite getNumber_spec. intros [-> | ->]; reflexivity. Qed.

(** C6.  A window center of two values whose second one is not a number
    is decoded as the vector [40, NaN], and a lone unparsable value as the
    scalar NaN: the window fields are not screened the way
    [getNumberArray] screens the position vector. *)
Theorem window_values_keep_NaN :
  match parseDicomFile (fun _ => Normal brokenWindowDataSet) [] "f.dcm" with
  | Normal (Some file) =>
      Instance.windowCenter (Parsed.instance file) = Some (WArray [Fin 40; NaN])
      /\ Instance.windowWidth (Parsed.instance file) = Some (WScalar (Fin 400))
  | _ => False
  end
  /\ windowValue (Some "abc") = Some (WScalar NaN).
Proof. vm_compute. repeat split. Qed.

(** ** The decode as a whole *)

Section DecoderFacts.

Variable parseDicom : list Byte.byte -> completion DataSet.

(** C2.  A buffer in which the study, series or instance UID is absent or
    unreadable is rejected, whatever else it holds. *)
Theorem required_uid_gate (arrayBuffer : list Byte.byte) (filePath : string) :
  uidText parseDicom arrayBuffer "x0020000d" = None
  \/ uidText parseDicom arrayBuffer "x0020000e" = None
  \/ uidText parseDicom arrayBuffer "x00080018" = None ->
  parseDicomFile parseDicom arrayBuffer filePath = Normal None.
Proof.
  unfold uidText, parseDicomFile, parseDicomFileBody.
  destruct (parseDicom arrayBuffer) as [ds|]; [|reflexivity].
  rewrite bind_Normal.
  rewrite (getString_spec ds "x0020000d"), bind_Normal.
  rewrite (getString_spec ds "x0020000e"), bind_Normal.
  rewrite (getString_spec ds "x00080018"), bind_Normal.
  destruct (ds_string ds "x0020000d") as [[u1|]|];
  destruct (ds_string ds "x0020000e") as [[u2|]|];
  destruct (ds_string ds "x00080018") as [[u3|]|];
    try reflexivity.
  intros [H|[H|H]]; discriminate H.
Qed.

Lemma parseDicomFileBody_complete (arrayBuffer : list Byte.byte) (filePath : string) :
  match parseDicomFileBody parseDicom arrayBuffer filePath with
  | Normal (Some file) => complete filePath file
  | _ => True
  end.
Proof.
  unfold parseDicomFileBody.
  destruct (parseDicom arrayBuffer) as [ds|]; [|exact I].
  rewrite bind_Normal.
  rewrite !getString_spec, !getNumber_spec, !getInt_spec, !getNumberArray_spec.
  cbn [mbind completion_bind].
  destruct (ds_string ds "x0020000d") as [[u1|]|]; try exact I;
  destruct (ds_string ds "x0020000e") as [[u2|]|]; try exact I;
  destruct (ds_string ds "x00080018") as [[u3|]|]; try exact I.
  destruct (nonEmpty (trim u1)) eqn:E1; [|exact I].
  destruct (nonEmpty (trim u2)) eqn:E2; [|exact I].
  destruct (nonEmpty (trim u3)) eqn:E3; [|exact I].
  cbn [negb orb].
  destruct (extractMetadata_normal ds (ds_elements ds) ∅) as [m ->].
  cbn. repeat split; assumption.
Qed.

(** C10.  [parseDicomFile] completes normally on every buffer and path:
    with the record its body returned, which is complete, or with [null];
    [null] is also what an exception thrown in its body becomes, the same
    value as the rejection for a missing UID. *)
Theorem parseDicomFile_total (arrayBuffer : list Byte.byte) (filePath : string) :
  exists r,
    parseDicomFile parseDicom arrayBuffer filePath = Normal r
    /\ match parseDicomFileBody parseDicom arrayBuffer filePath with
       | Throw => r = None
       | Normal r' => r = r'
       end
    /\ match parseDicom arrayBuffer with
       | Throw => r = None
       | Normal _ => True
       end
    /\ match r with
       | None => True
       | Some file => complete filePath file
       end.
Proof.
  pose proof (parseDicomFileBody_complete arrayBuffer filePath) as Hbody.
  assert (match parseDicom arrayBuffer with
          | Throw => parseDicomFileBody parseDicom arrayBuffer filePath = Throw
          | Normal _ => True
          end) as Hthrow.
  { unfold parseDicomFileBody. destruct (parseDicom arrayBuffer); [exact I|reflexivity]. }
  unfold parseDicomFile.
  destruct (parseDicomFileBody parseDicom arrayBuffer filePath) as [[file|]|];
    eexists; (split; [reflexivity|]); (split; [reflexivity|]);
    (split; [|assumption || exact I]);
    destruct (parseDicom arrayBuffer); auto; discriminate.
Qed.

End DecoderFacts.

Lemma required_uid_gate_witness :
  parseDicomFile (fun _ => Normal noSeriesDataSet) [] "scan/1.dcm" = Normal None.
Proof. apply required_uid_gate. right; left. reflexivity. Defined.

(** ** Grouping *)

Lemma addFile_new_study (studies : gmap string DicomStudy) (file : ParsedDicomFile) :
  studies !! Parsed.studyInstanceUID file = None ->
  addFile studies file =
  <[Parsed.studyInstanceUID file :=
      setSeries (newStudy file)
        (<[Parsed.seriesInstanceUID file :=
             setInstances (newSeries file) [Parsed.instance file]]> ∅)]> studies.
Proof.
  intros H. unfold addFile. rewrite H. cbn [orDefault newStudy Study.series].
  rewrite lookup_empty. reflexivity.
Qed.

Lemma addFile_new_series (studies : gmap string DicomStudy) (file : ParsedDicomFile)
    (study : DicomStudy) :
  studies !! Parsed.studyInstanceUID file = Some study ->
  Study.series study !! Parsed.seriesInstanceUID file = None ->
  addFile studies file =
  <[Parsed.studyInstanceUID file :=
      setSeries study
        (<[Parsed.seriesInstanceUID file :=
             setInstances (newSeries file) [Parsed.instance file]]>
           (Study.series study))]> studies.
Proof.
  intros H1 H2. unfold addFile. rewrite H1. cbn [orDefault]. rewrite H2. reflexivity.
Qed.

Lemma addFile_known_series (studies : gmap string DicomStudy) (file : ParsedDicomFile)
    (study : DicomStudy) (series : DicomSeries) :
  studies !! Parsed.studyInstanceUID file = Some study ->
  Study.series study !! Parsed.seriesInstanceUID file = Some series ->
  addFile studies file =
  <[Parsed.studyInstanceUID file :=
      setSeries study
        (<[Parsed.seriesInstanceUID file :=
             setInstances series (Series.instances series ++ [Parsed.instance file])]>
           (Study.series study))]> studies.
Proof.
  intros H1 H2. unfold addFile. rewrite H1. cbn [orDefault]. rewrite H2. reflexivity.
Qed.

Section Grouping.

Variables f1 f2 f3 f4 : ParsedDicomFile.
Variables s1 s2 a b c : string.

Hypothesis Hs : s1 <> s2.
Hypothesis Hab : a <> b.
Hypothesis H1 : (Parsed.studyInstanceUID f1, Parsed.seriesInstanceUID f1) = (s1, a).
Hypothesis H2 : (Parsed.studyInstanceUID f2, Parsed.seriesInstanceUID f2) = (s1, a).
Hypothesis H3 : (Parsed.studyInstanceUID f3, Parsed.seriesInstanceUID f3) = (s1, b).
Hypothesis H4 : (Parsed.studyInstanceUID f4, Parsed.seriesInstanceUID f4) = (s2, c).

Lemma fold_four :
  foldl addFile ∅ [f1; f2; f3; f4] =
  <[s2 := setSeries (newStudy f4)
            (<[c := setInstances (newSeries f4) [Parsed.instance f4]]> ∅)]>
  (<[s1 := setSeries (newStudy f1)
            (<[b := setInstances (newSeries f3) [Parsed.instance f3]]>
             (<[a := setInstances (newSeries f1) [Parsed.instance f1; Parsed.instance f2]]> ∅))]> ∅).
Proof.
  injection H1 as E1 E1'. injection H2 as E2 E2'.
  injection H3 as E3 E3'. injection H4 as E4 E4'.
  cbn [foldl].
  rewrite (addFile_new_study ∅ f1) by apply lookup_empty.
  rewrite E1, E1'.
  erewrite (addFile_known_series _ f2);
    [ | rewrite E2; apply lookup_insert_eq
      | rewrite E2'; cbn [setSeries Study.series]; apply lookup_insert_eq ].
  rewrite E2, E2'. cbn [setSeries Study.series setInstances Series.instances app].
  rewrite !insert_insert_eq.
  erewrite (addFile_new_series _ f3);
    [ | rewrite E3; apply lookup_insert_eq
      | rewrite E3'; cbn [setSeries Study.series];
        rewrite lookup_insert_ne by exact Hab; apply lookup_empty ].
  rewrite E3, E3'. cbn [setSeries Study.series]. rewrite !insert_insert_eq.
  rewrite (addFile_new_study _ f4)
    by (rewrite E4; rewrite lookup_insert_ne by exact Hs; apply lookup_empty).
  rewrite E4, E4'. reflexivity.
Qed.

(** C8.  Four records with the (study, series) pairs (S1,A), (S1,A),
    (S1,B), (S2,C) are grouped into two studies: S1 with the two series A
    (two instances) and B (one instance), S2 with the one series C (one
    instance). *)
Theorem grouping_scenario :
  let studies := groupDicomFiles [f1; f2; f3; f4] in
  size studies = 2%nat
  /\ exists study1 study2 seriesA seriesB seriesC,
       studies !! s1 = Some study1
       /\ studies !! s2 = Some study2
       /\ size (Study.series study1) = 2%nat
       /\ Study.series study1 !! a = Some seriesA
       /\ Series.instances seriesA = [Parsed.instance f1; Parsed.instance f2]
       /\ length (Series.sortedInstances seriesA) = 2%nat
       /\ Study.series study1 !! b = Some seriesB
       /\ Series.instances seriesB = [Parsed.instance f3]
       /\ length (Series.sortedInstances seriesB) = 1%nat
       /\ size (Study.series study2) = 1%nat
       /\ Study.series study2 !! c = Some seriesC
       /\ Series.instances seriesC = [Parsed.instance f4]
       /\ length (Series.sortedInstances seriesC) = 1%nat.
Proof.
  cbv zeta. unfold groupDicomFiles. rewrite fold_four.
  rewrite !fmap_insert, !fmap_empty.
  cbn [setSeries Study.series]. rewrite !fmap_insert, !fmap_empty.
  assert (forall l, length (sortInstances l) = length l) as Hlen
    by (intros l; symmetry; apply Permutation_length, sort_perm).
  split.
  - rewrite map_size_insert_None
      by (rewrite lookup_insert_ne by exact Hs; apply lookup_empty).
    rewrite map_size_insert_None by apply lookup_empty.
    rewrite map_size_empty. reflexivity.
  - do 5 eexists.
    split; [rewrite lookup_insert_ne by (intros E; apply Hs; symmetry; exact E);
            apply lookup_insert_eq|].
    split; [apply lookup_insert_eq|].
    cbn [Study.series setSeries].
    split.
    { rewrite map_size_insert_None
        by (rewrite lookup_insert_ne by exact Hab; apply lookup_empty).
      rewrite map_size_insert_None by apply lookup_empty.
      rewrite map_size_empty. reflexivity. }
    split; [rewrite lookup_insert_ne by (intros E; apply Hab; symmetry; exact E);
            apply lookup_insert_eq|].
    split; [reflexivity|].
    split; [cbn [sortSeries setSortedInstances setInstances Series.sortedInstances Series.instances];
            rewrite Hlen; reflexivity|].
    split; [apply lookup_insert_eq|].
    split; [reflexivity|].
    split; [cbn [sortSeries setSortedInstances setInstances Series.sortedInstances Series.instances];
            rewrite Hlen; reflexivity|].
    split; [rewrite map_size_insert_None by apply lookup_empty;
            rewrite map_size_empty; reflexivity|].
    split; [apply lookup_insert_eq|].
    split; [reflexivity|].
    cbn [sortSeries setSortedInstances setInstances Series.sortedInstances Series.instances].
    rewrite Hlen. reflexivity.
Qed.
End Grouping.

Lemma grouping_scenario_witness :
  size (groupDicomFiles [ sampleFile "study1" "series1" "sop1";
                          sampleFile "study1" "series1" "sop2";
                          sampleFile "study1" "series2" "sop3";
                          sampleFile "study2" "series3" "sop4" ]) = 2%nat.
Proof.
  apply (proj1 (grouping_scenario
                  (sampleFile "study1" "series1" "sop1")
                  (sampleFile "study1" "series1" "sop2")
                  (sampleFile "study1" "series2" "sop3")
                  (sampleFile "study2" "series3" "sop4")
                  "study1" "study2" "series1" "series2" "series3"
                  ltac:(discriminate) ltac:(discriminate)
                  eq_refl eq_refl eq_refl eq_refl)).
Defined.

(** ** The pixel transform *)

#[local] Arguments Num.gtb : simpl nomatch.
#[local] Arguments Num.ltb : simpl nomatch.
#[local] Arguments Num.leb : simpl nomatch.
#[local] Arguments Num.geb : simpl nomatch.

Lemma leb_Fin_false (p q : Q) : (Fin p <=? Fin q)%num = false <-> Qlt q p.
Proof.
  unfold leb. qcmp; split; intros; try discriminate; auto; try lra; exfalso; lra.
Qed.

Lemma half_Fin (w : Q) : (Fin w / ofZ 2)%num = Fin (w * (1 # 2)).
Proof. reflexivity. Qed.

Lemma windowArm_nonpositive_width (mv wc ww : number) :
  isNaN mv = false -> isNaN wc = false -> (ww <=? ofZ 0)%num = true ->
  windowArm mv (windowLow wc ww) (windowHigh wc ww) <> Scale.
Proof.
  unfold windowArm, windowLow, windowHigh.
  destruct mv as [|sm|m], wc as [|sc|c], ww as [|sw|w];
    try discriminate; intros _ _ Hw.
  - destruct sm, sc, sw; try discriminate Hw; simpl; discriminate.
  - destruct sm, sc; rewrite half_Fin; simpl; discriminate.
  - destruct sm, sw; try discriminate Hw; simpl; discriminate.
  - rewrite half_Fin. destruct sm; simpl; try discriminate.
  - destruct sc, sw; try discriminate Hw; simpl; discriminate.
  - rewrite half_Fin. destruct sc; simpl; discriminate.
  - destruct sw; try discriminate Hw; simpl; discriminate.
  - rewrite half_Fin. cbn [sub add].
    apply leb_Fin in Hw.
    destruct (Fin m <=? Fin (c - w * (1 # 2)))%num eqn:E1; [discriminate|].
    destruct (Fin m >=? Fin (c + w * (1 # 2)))%num eqn:E2; [discriminate|].
    exfalso. apply leb_Fin_false in E1. unfold geb in E2. apply leb_Fin_false in E2.
    unfold inject_Z in *. lra.
Qed.

Lemma windowArm_NaN (mv wc ww : number) :
  isNaN mv = true \/ isNaN wc = true \/ isNaN ww = true ->
  windowArm mv (windowLow wc ww) (windowHigh wc ww) = Scale.
Proof.
  assert (forall x, (x <=? NaN)%num = false) as leb_r by (now intros []).
  assert (forall x, (x - NaN)%num = NaN) as sub_r by (now intros []).
  assert (forall x, (x + NaN)%num = NaN) as add_r by (now intros []).
  unfold windowArm, windowLow, windowHigh, geb.
  intros [H|[H|H]].
  - destruct mv; try discriminate H. now rewrite leb_r.
  - destruct wc; try discriminate H.
    change (NaN - ww / ofZ 2)%num with NaN. change (NaN + ww / ofZ 2)%num with NaN.
    now rewrite leb_r.
  - destruct ww; try discriminate H.
    change (NaN / ofZ 2)%num with NaN. rewrite sub_r, add_r, leb_r.
    now destruct mv.
Qed.

(** C7, as the code has it.  The frame is rendered with the window
    [selectWindow] yields: the first values of the file's center and width
    texts whenever both are present and not empty, whatever numbers they
    read as, and the viewer's own window otherwise; no default replaces a
    width.  With a width that is zero or negative, a sample takes the
    scaling arm, where the division by the width is, exactly when the
    modality value or the center is NaN; otherwise it takes a clamp arm
    and its display value is 0 or 255.  With a width that is NaN every
    sample takes the scaling arm: the display value is NaN, stored as
    0. *)
Theorem nonpositive_width_clamps (viewerState : ViewerState)
    (wcStr wwStr : option string) (mv : number) :
  let wc := fst (selectWindow viewerState wcStr wwStr) in
  let ww := snd (selectWindow viewerState wcStr wwStr) in
  (forall c w, wcStr = Some c -> wwStr = Some w ->
     nonEmpty c = true -> nonEmpty w = true ->
     wc = parseFloat (firstValue c) /\ ww = parseFloat (firstValue w))
  /\ (wcStr = None \/ wwStr = None
      \/ wcStr = Some EmptyString \/ wwStr = Some EmptyString ->
      wc = Viewer.windowCenter viewerState /\ ww = Viewer.windowWidth viewerState)
  /\ ((ww <=? ofZ 0)%num = true ->
      (windowArm mv (windowLow wc ww) (windowHigh wc ww) = Scale
       <-> isNaN mv = true \/ isNaN wc = true)
      /\ (isNaN mv = false -> isNaN wc = false ->
          displayValue mv wc ww = ofZ 0 \/ displayValue mv wc ww = ofZ 255))
  /\ (isNaN ww = true ->
      windowArm mv (windowLow wc ww) (windowHigh wc ww) = Scale
      /\ displayValue mv wc ww = NaN
      /\ rgba (displayValue mv wc ww) = [0; 0; 0; 255]).
Proof.
  cbv zeta. split; [|split].
  - intros c w -> -> Hc Hw. unfold selectWindow. rewrite Hc, Hw. split; reflexivity.
  - unfold selectWindow. intros [-> | [-> | [-> | ->]]].
    + split; reflexivity.
    + destruct wcStr; split; reflexivity.
    + destruct wwStr; split; reflexivity.
    + destruct wcStr as [c|]; [|split; reflexivity].
      rewrite andb_false_r. split; reflexivity.
  - destruct (selectWindow viewerState wcStr wwStr) as [wc ww]. cbn [fst snd].
    split.
    + intros Hww. split.
      * split.
        -- intros Harm.
           destruct (isNaN mv) eqn:Hmv; [now left|].
           destruct (isNaN wc) eqn:Hwc; [now right|].
           exfalso. exact (windowArm_nonpositive_width mv wc ww Hmv Hwc Hww Harm).
        -- intros [H|H]; apply windowArm_NaN; auto.
      * intros Hmv Hwc.
        pose proof (windowArm_nonpositive_width mv wc ww Hmv Hwc Hww) as Harm.
        unfold displayValue.
        destruct (windowArm mv _ _); [left | right | contradiction]; reflexivity.
    + intros Hww.
      assert (windowArm mv (windowLow wc ww) (windowHigh wc ww) = Scale) as Harm
        by (apply windowArm_NaN; auto).
      split; [exact Harm|].
      assert (displayValue mv wc ww = NaN) as ->.
      { unfold displayValue. rewrite Harm.
        destruct ww; try discriminate Hww.
        destruct mv, wc; reflexivity. }
      split; reflexivity.
Qed.

Lemma nonpositive_width_clamps_witness :
  displayValue (ofZ 100) (Fin 40) (Fin 0) = ofZ 0
  \/ displayValue (ofZ 100) (Fin 40) (Fin 0) = ofZ 255.
Proof.
  apply (proj2 (proj1 (proj2 (proj2 (nonpositive_width_clamps initialViewerState
                                       (Some "40") (Some "0") (ofZ 100))))
                      eq_refl)
               eq_refl eq_refl).
Defined.

(** C7 as stated fails: a file whose window width reads 0 is rendered with
    the width 0; the default window does not replace it. *)
Lemma zero_width_is_used :
  ~ usesPositiveWidth initialViewerState (Some "40") (Some "0").
Proof. unfold usesPositiveWidth. vm_compute. discriminate. Qed.

Lemma round_Fin (q : Q) :
  exists n : Z, round (Fin q) = ofZ n /\ (inject_Z n - (1 # 2) <= q < inject_Z n + (1 # 2))%Q.
Proof.
  exists (Qfloor (q + (1 # 2))). split; [reflexivity|].
  pose proof (Qfloor_le (q + (1 # 2))) as H1.
  pose proof (Qlt_floor (q + (1 # 2))) as H2.
  rewrite inject_Z_plus in H2. change (inject_Z 1) with (1 # 1)%Q in H2.
  split; lra.
Qed.

(** Every sample of the frame goes through the rescale and the window
    transform, each on its own. *)
Lemma renderPixels_sample (count : nat) (i : Z) (pixelData : list Byte.byte)
    (bytesPerPixel : number) (isSigned : bool)
    (rescaleSlope rescaleIntercept wc ww : number) (data : list Z) :
  renderPixels count i pixelData bytesPerPixel isSigned
    rescaleSlope rescaleIntercept wc ww = Normal data ->
  forall k : nat, (k < count)%nat ->
    exists pixelValue,
      readSample pixelData bytesPerPixel isSigned (i + Z.of_nat k) = Normal pixelValue
      /\ take 4 (drop (4 * k) data) =
         rgba (displayValue (pixelValue * rescaleSlope + rescaleIntercept)%num wc ww).
Proof.
  revert i data. induction count as [|count IH]; intros i data Hrun k Hk; [lia|].
  cbn [renderPixels] in Hrun.
  destruct (readSample pixelData bytesPerPixel isSigned i) as [pv|] eqn:Epv;
    [|discriminate Hrun].
  rewrite bind_Normal in Hrun.
  destruct (renderPixels count (i + 1) pixelData bytesPerPixel isSigned
              rescaleSlope rescaleIntercept wc ww) as [rest|] eqn:Erest;
    [|discriminate Hrun].
  rewrite bind_Normal in Hrun. injection Hrun as <-.
  destruct k as [|k].
  - exists pv. split; [rewrite Z.add_0_r; exact Epv | reflexivity].
  - destruct (IH (i + 1) rest Erest k ltac:(lia)) as (pv' & Hpv' & Hdata).
    exists pv'. split.
    + replace (i + Z.of_nat (S k)) with (i + 1 + Z.of_nat k) by lia. exact Hpv'.
    + replace (4 * S k)%nat with (4 + 4 * k)%nat by lia. exact Hdata.
Qed.

(** C1.  With the window 40/400 the bounds are -160 and 240; the modality
    values -200, 300 and 40 are displayed as 0, 255 and 128; the raw sample
    600 with slope 2 and intercept -1000 has the modality value 200 and is
    displayed as 230.  The rounding is that of [Math.round], a tie going
    up, so that the display value [n] of a modality value strictly inside
    the window satisfies [n - 1/2 <= (mv - low) / width * 255 < n + 1/2];
    at or below the lower bound the display value is 0, at or above the
    upper bound 255.  The vectors evaluate to the same values in binary64
    arithmetic. *)
Theorem pixel_transform_vectors :
  Num.eqb (windowLow (ofZ 40) (ofZ 400)) (ofZ (-160)) = true
  /\ Num.eqb (windowHigh (ofZ 40) (ofZ 400)) (ofZ 240) = true
  /\ displayValue (ofZ (-200)) (ofZ 40) (ofZ 400) = ofZ 0
  /\ displayValue (ofZ 300) (ofZ 40) (ofZ 400) = ofZ 255
  /\ displayValue (ofZ 40) (ofZ 40) (ofZ 400) = ofZ 128
  /\ modalityValue (ofZ 600) (ofZ 2) (ofZ (-1000)) = ofZ 200
  /\ displayValue (modalityValue (ofZ 600) (ofZ 2) (ofZ (-1000))) (ofZ 40) (ofZ 400)
     = ofZ 230
  /\ (forall raw slope intercept : Q,
        modalityValue (Fin raw) (Fin slope) (Fin intercept)
        = Fin (raw * slope + intercept))
  /\ (forall q : Q, (q <= -160)%Q -> displayValue (Fin q) (ofZ 40) (ofZ 400) = ofZ 0)
  /\ (forall q : Q, (240 <= q)%Q -> displayValue (Fin q) (ofZ 40) (ofZ 400) = ofZ 255)
  /\ (forall q : Q, (-160 < q < 240)%Q ->
        exists n : Z,
          displayValue (Fin q) (ofZ 40) (ofZ 400) = ofZ n
          /\ (0 <= n <= 255)%Z
          /\ (inject_Z n - (1 # 2) <= (q - -160) / 400 * 255 < inject_Z n + (1 # 2))%Q)
  /\ Binary64.displayValue (Binary64.ofZ (-200)) (Binary64.ofZ 40) (Binary64.ofZ 400)
     = Binary64.ofZ 0
  /\ Binary64.displayValue (Binary64.ofZ 300) (Binary64.ofZ 40) (Binary64.ofZ 400)
     = Binary64.ofZ 255
  /\ Binary64.displayValue (Binary64.ofZ 40) (Binary64.ofZ 40) (Binary64.ofZ 400)
     = Binary64.ofZ 128
  /\ Binary64.modalityValue (Binary64.ofZ 600) (Binary64.ofZ 2) (Binary64.ofZ (-1000))
     = Binary64.ofZ 200
  /\ Binary64.displayValue (Binary64.ofZ 200) (Binary64.ofZ 40) (Binary64.ofZ 400)
     = Binary64.ofZ 230.
Proof.
  repeat match goal with |- _ /\ _ => split end;
    try reflexivity; try (vm_compute; reflexivity).
  - intros q Hq. unfold displayValue.
    change (windowLow (ofZ 40) (ofZ 400)) with (Fin (-320 # 2)).
    unfold windowArm. rewrite (proj2 (leb_Fin q (-320 # 2))) by lra. reflexivity.
  - intros q Hq. unfold displayValue.
    change (windowLow (ofZ 40) (ofZ 400)) with (Fin (-320 # 2)).
    change (windowHigh (ofZ 40) (ofZ 400)) with (Fin (480 # 2)).
    unfold windowArm. rewrite (proj2 (leb_Fin_false q (-320 # 2))) by lra.
    unfold geb. rewrite (proj2 (leb_Fin (480 # 2) q)) by lra. reflexivity.
  - intros q [Hlo Hhi]. unfold displayValue.
    change (windowLow (ofZ 40) (ofZ 400)) with (Fin (-320 # 2)).
    change (windowHigh (ofZ 40) (ofZ 400)) with (Fin (480 # 2)).
    unfold windowArm. rewrite (proj2 (leb_Fin_false q (-320 # 2))) by lra.
    unfold geb. rewrite (proj2 (leb_Fin_false (480 # 2) q)) by lra.
    change ((Fin q - Fin (-320 # 2)) / ofZ 400 * ofZ 255)%num
      with (Fin ((q - (-320 # 2)) * (1 # 400) * (255 # 1))).
    destruct (round_Fin ((q - (-320 # 2)) * (1 # 400) * (255 # 1))) as (n & -> & Hn).
    exists n. split; [reflexivity|].
    assert ((q - -160) / 400 * 255 == (q - (-320 # 2)) * (1 # 400) * (255 # 1))%Q as E
      by (unfold Qdiv; change (/ 400)%Q with (1 # 400)%Q; ring).
    rewrite E. split; [|exact Hn].
    assert (inject_Z (-1) < inject_Z n)%Q as L by (change (inject_Z (-1)) with (-1 # 1)%Q; lra).
    assert (inject_Z n < inject_Z 256)%Q as U by (change (inject_Z 256) with (256 # 1)%Q; lra).
    rewrite <- Zlt_Qlt in L, U. lia.
Qed.

Lemma pixel_transform_vectors_witness :
  displayValue (Fin (-500)) (ofZ 40) (ofZ 400) = ofZ 0
  /\ displayValue (Fin 500) (ofZ 40) (ofZ 400) = ofZ 255
  /\ exists n : Z,
       displayValue (Fin 0) (ofZ 40) (ofZ 400) = ofZ n /\ (0 <= n <= 255)%Z.
Proof.
  destruct pixel_transform_vectors
    as (_ & _ & _ & _ & _ & _ & _ & _ & Hlow & Hhigh & Hin & _).
  split; [apply Hlow; discriminate|].
  split; [apply Hhigh; discriminate|].
  destruct (Hin 0%Q) as (n & Hn & Hrange & _); [split; reflexivity|].
  exists n. split; assumption.
Defined.

(** ** The scenarios of the test suite *)

Example sort_by_position :
  map Instance.filePath
    (sortInstances [ sampleInstance "p30" (at_z 30) None (Some (ofZ 3)) None;
                     sampleInstance "p10" (at_z 10) None (Some (ofZ 1)) None;
                     sampleInstance "p20" (at_z 20) None (Some (ofZ 2)) None ])
  = ["p10"; "p20"; "p30"].
Proof. reflexivity. Qed.

Example sort_by_slice_location :
  map Instance.filePath
    (sortInstances [ sampleInstance "s30" None (Some (ofZ 30)) (Some (ofZ 3)) None;
                     sampleInstance "s10" None (Some (ofZ 10)) (Some (ofZ 1)) None;
                     sampleInstance "s20" None (Some (ofZ 20)) (Some (ofZ 2)) None ])
  = ["s10"; "s20"; "s30"].
Proof. reflexivity. Qed.

Example sort_by_instance_number :
  map Instance.filePath
    (sortInstances [ sampleInstance "n3" None None (Some (ofZ 3)) None;
                     sampleInstance "n1" None None (Some (ofZ 1)) None;
                     sampleInstance "n2" None None (Some (ofZ 2)) None ])
  = ["n1"; "n2"; "n3"].
Proof. reflexivity. Qed.

Example sort_by_path :
  map Instance.filePath
    (sortInstances [ sampleInstance "c" None None None None;
                     sampleInstance "a" None None None None;
                     sampleInstance "b" None None None None ])
  = ["a"; "b"; "c"].
Proof. reflexivity. Qed.

Example render_frame :
  renderImage (fun _ => Normal (frameDataSet "40" "400")) initialViewerState framePixels
  = Rendered initialViewerState 2 1 [230; 230; 230; 255; 0; 0; 0; 255].
Proof. vm_compute. reflexivity. Qed.

Example render_frame_zero_width :
  renderImage (fun _ => Normal (frameDataSet "40" "0")) initialViewerState framePixels
  = Rendered {| Viewer.windowCenter := Fin 40;
                Viewer.windowWidth := Fin 0;
                Viewer.zoom := ofZ 1;
                Viewer.panX := ofZ 0;
                Viewer.panY := ofZ 0 |}
             2 1 [255; 255; 255; 255; 0; 0; 0; 255].
Proof. vm_compute. reflexivity. Qed.

Example render_frame_NaN_width :
  renderImage (fun _ => Normal (frameDataSet "40" "abc")) initialViewerState framePixels
  = Rendered {| Viewer.windowCenter := Fin 40;
                Viewer.windowWidth := NaN;
                Viewer.zoom := ofZ 1;
                Viewer.panX := ofZ 0;
                Viewer.panY := ofZ 0 |}
             2 1 [0; 0; 0; 255; 0; 0; 0; 255].
Proof. vm_compute. reflexivity. Qed.

Example render_without_pixel_data :
  renderImage (fun _ => Normal brokenWindowDataSet) initialViewerState framePixels
  = RenderError.
Proof. reflexivity. Qed.

Example group_nothing : groupDicomFiles [] = ∅.
Proof. reflexivity. Qed.

Example parseFloat_examples :
  parseFloat "  -12.50e1abc" = Fin (-125 # 1)
  /\ parseFloat ".5" = Fin (1 # 2)
  /\ parseFloat "." = NaN
  /\ parseFloat "abc" = NaN
  /\ parseFloat "-Infinityx" = Inf true
  /\ parseFloat "5.e" = Fin (5 # 1)
  /\ parseFloat "1.5e-2" = Fin (3 # 200)
  /\ parseFloat "1e999" = Inf false.
Proof. repeat split; vm_compute; reflexivity. Qed.

Example string_examples :
  split backslash "40\abc\" = ["40"; "abc"; ""]
  /\ trim "  a b  " = "a b"
  /\ formatTagString "x0008103e" = "(0008,103E)"
  /\ formatPatientName (Some "DOE^JOHN^ ") = Some "DOE JOHN".
Proof. repeat split. Qed.

(** ** Further properties *)

(** *** The gate and the decoded record *)

Lemma parseDicomFile_Some (parseDicom : list Byte.byte -> completion DataSet)
    (arrayBuffer : list Byte.byte) (filePath : string) (file : ParsedDicomFile) :
  parseDicomFile parseDicom arrayBuffer filePath = Normal (Some file) ->
  exists dataSet studyUID seriesUID sopUID metadata,
    parseDicom arrayBuffer = Normal dataSet
    /\ uidValue parseDicom arrayBuffer "x0020000d" = Some studyUID
    /\ uidValue parseDicom arrayBuffer "x0020000e" = Some seriesUID
    /\ uidValue parseDicom arrayBuffer "x00080018" = Some sopUID
    /\ extractMetadata dataSet (ds_elements dataSet) ∅ = Normal metadata
    /\ file = {| Parsed.filePath := filePath;
                 Parsed.studyInstanceUID := studyUID;
                 Parsed.seriesInstanceUID := seriesUID;
                 Parsed.sopInstanceUID := sopUID;
                 Parsed.instance := decodedInstance dataSet filePath sopUID;
                 Parsed.studyInfo := decodedStudyInfo dataSet studyUID;
                 Parsed.seriesInfo := decodedSeriesInfo dataSet studyUID seriesUID;
                 Parsed.metadata := metadata |}.
Proof.
  unfold uidValue, parseDicomFile, parseDicomFileBody.
  destruct (parseDicom arrayBuffer) as [ds|]; [|discriminate].
  rewrite bind_Normal.
  rewrite !getString_spec, !getNumber_spec, !getInt_spec, !getNumberArray_spec.
  cbn [mbind completion_bind].
  destruct (ds_string ds "x0020000d") as [[u1|]|] eqn:D1; try discriminate.
  destruct (ds_string ds "x0020000e") as [[u2|]|] eqn:D2; try discriminate.
  destruct (ds_string ds "x00080018") as [[u3|]|] eqn:D3; try discriminate.
  destruct (nonEmpty (trim u1)); [|discriminate].
  destruct (nonEmpty (trim u2)); [|discriminate].
  destruct (nonEmpty (trim u3)); [|discriminate].
  cbn [negb orb].
  destruct (extractMetadata_normal ds (ds_elements ds) ∅) as [m Hm]. rewrite Hm.
  cbn [mbind completion_bind mret completion_ret tryCatch].
  intros H. injection H as <-.
  exists ds, (trim u1), (trim u2), (trim u3), m.
  repeat split; try reflexivity; exact Hm.
Qed.

Lemma parseDicomFile_normal (parseDicom : list Byte.byte -> completion DataSet)
    (arrayBuffer : list Byte.byte) (filePath : string) :
  exists r, parseDicomFile parseDicom arrayBuffer filePath = Normal r.
Proof.
  unfold parseDicomFile.
  destruct (parseDicomFileBody parseDicom arrayBuffer filePath); simpl; eauto.
Qed.

Lemma numberOf_notNaN (dataSet : DataSet) (tag : string) :
  notNaN (numberOf dataSet tag).
Proof.
  unfold numberOf. destruct (ds_string dataSet tag) as [[s|]|]; simpl; auto.
  destruct (isNaN (parseFloat s)) eqn:E; simpl; auto.
Qed.

Lemma orDefault_notNaN (x : option number) (d : number) :
  notNaN x -> isNaN d = false -> isNaN (orDefault x d) = false.
Proof. destruct x; simpl; auto. Qed.

Section GateFacts.
Variable parseDicom : list Byte.byte -> completion DataSet.

Lemma parseDicomFile_None (arrayBuffer : list Byte.byte) (filePath : string) :
  parseDicomFile parseDicom arrayBuffer filePath = Normal None ->
  uidValue parseDicom arrayBuffer "x0020000d" = None
  \/ uidValue parseDicom arrayBuffer "x0020000e" = None
  \/ uidValue parseDicom arrayBuffer "x00080018" = None.
Proof.
  unfold uidValue, parseDicomFile, parseDicomFileBody.
  destruct (parseDicom arrayBuffer) as [ds|]; [|auto].
  rewrite bind_Normal.
  rewrite !getString_spec, !getNumber_spec, !getInt_spec, !getNumberArray_spec.
  cbn [mbind completion_bind].
  destruct (ds_string ds "x0020000d") as [[u1|]|]; [|auto|auto].
  destruct (ds_string ds "x0020000e") as [[u2|]|]; [|auto|auto].
  destruct (ds_string ds "x00080018") as [[u3|]|]; [|auto|auto].
  destruct (nonEmpty (trim u1)); [|auto].
  destruct (nonEmpty (trim u2)); [|auto].
  destruct (nonEmpty (trim u3)); [|auto].
  cbn [negb orb].
  destruct (extractMetadata_normal ds (ds_elements ds) ∅) as [m ->].
  cbn. discriminate.
Qed.

(** X1. [parseDicomFile] returns [null] exactly when the buffer does not
    parse or one of the three identifiers (study, series, SOP instance) is
    unreadable, absent, or empty once trimmed; nothing else in the buffer
    makes it reject. *)
Theorem parseDicomFile_rejects_iff (arrayBuffer : list Byte.byte) (filePath : string) :
  parseDicomFile parseDicom arrayBuffer filePath = Normal None
  <-> uidValue parseDicom arrayBuffer "x0020000d" = None
      \/ uidValue parseDicom arrayBuffer "x0020000e" = None
      \/ uidValue parseDicom arrayBuffer "x00080018" = None.
Proof.
  split; [apply parseDicomFile_None|]. intros H.
  destruct (parseDicomFile_normal parseDicom arrayBuffer filePath) as [[file|] Hr];
    [|exact Hr].
  destruct (parseDicomFile_Some _ _ _ _ Hr)
    as (ds & a & b & c & m & _ & Ha & Hb & Hc & _).
  destruct H as [H|[H|H]]; congruence.
Qed.

End GateFacts.

Section DecodedRecord.
Variable parseDicom : list Byte.byte -> completion DataSet.

(** X2. A buffer whose three identifiers are readable and not blank is
    accepted, and the record carries the trimmed identifiers and the path. *)
Theorem parseDicomFile_accepts (arrayBuffer : list Byte.byte) (filePath : string)
    (studyUID seriesUID sopUID : string) :
  uidValue parseDicom arrayBuffer "x0020000d" = Some studyUID ->
  uidValue parseDicom arrayBuffer "x0020000e" = Some seriesUID ->
  uidValue parseDicom arrayBuffer "x00080018" = Some sopUID ->
  exists file,
    parseDicomFile parseDicom arrayBuffer filePath = Normal (Some file)
    /\ Parsed.filePath file = filePath
    /\ Parsed.studyInstanceUID file = studyUID
    /\ Parsed.seriesInstanceUID file = seriesUID
    /\ Parsed.sopInstanceUID file = sopUID
    /\ Instance.filePath (Parsed.instance file) = filePath
    /\ Instance.sopInstanceUID (Parsed.instance file) = sopUID
    /\ StudyInfo.studyInstanceUID (Parsed.studyInfo file) = Some studyUID
    /\ SeriesInfo.seriesInstanceUID (Parsed.seriesInfo file) = Some seriesUID
    /\ SeriesInfo.studyInstanceUID (Parsed.seriesInfo file) = Some studyUID.
Proof.
  intros H1 H2 H3.
  destruct (parseDicomFile_normal parseDicom arrayBuffer filePath) as [[file|] Hr].
  - destruct (parseDicomFile_Some _ _ _ _ Hr)
      as (ds & a & b & c & m & _ & Ha & Hb & Hc & _ & ->).
    exists {| Parsed.filePath := filePath;
              Parsed.studyInstanceUID := a;
              Parsed.seriesInstanceUID := b;
              Parsed.sopInstanceUID := c;
              Parsed.instance := decodedInstance ds filePath c;
              Parsed.studyInfo := decodedStudyInfo ds a;
              Parsed.seriesInfo := decodedSeriesInfo ds a b;
              Parsed.metadata := m |}.
    rewrite Ha in H1. rewrite Hb in H2. rewrite Hc in H3.
    injection H1 as ->. injection H2 as ->. injection H3 as ->.
    repeat split; try reflexivity. exact Hr.
  - apply parseDicomFile_None in Hr.
    destruct Hr as [H|[H|H]]; congruence.
Qed.

(** X3. No scalar numeric field of a decoded record is NaN, the position
    vector has no NaN component, and rescale slope and intercept and the
    modality are always present. *)
Theorem decoded_fields_are_usable (arrayBuffer : list Byte.byte) (filePath : string)
    (file : ParsedDicomFile) :
  parseDicomFile parseDicom arrayBuffer filePath = Normal (Some file) ->
  let i := Parsed.instance file in
  notNaN (Instance.instanceNumber i)
  /\ notNaN (Instance.sliceLocation i)
  /\ notNaN (Instance.acquisitionNumber i)
  /\ notNaN (Instance.numberOfFrames i)
  /\ notNaN (SeriesInfo.seriesNumber (Parsed.seriesInfo file))
  /\ (forall p, Instance.imagePositionPatient i = Some p -> existsb isNaN p = false)
  /\ (exists slope, Instance.rescaleSlope i = Some slope /\ isNaN slope = false)
  /\ (exists intercept,
        Instance.rescaleIntercept i = Some intercept /\ isNaN intercept = false)
  /\ (exists m, SeriesInfo.modality (Parsed.seriesInfo file) = Some m).
Proof.
  intros Hr. destruct (parseDicomFile_Some _ _ _ _ Hr)
    as (ds & a & b & c & m & _ & _ & _ & _ & _ & ->).
  cbn. repeat split; try apply numberOf_notNaN.
  - intros p. unfold vectorOf.
    destruct (ds_string ds "x00200032") as [[s|]|]; try discriminate.
    cbv zeta. destruct (existsb isNaN _) eqn:E; [discriminate|].
    intros H. injection H as <-. exact E.
  - eexists. split; [reflexivity|].
    apply orDefault_notNaN; [apply numberOf_notNaN | reflexivity].
  - eexists. split; [reflexivity|].
    apply orDefault_notNaN; [apply numberOf_notNaN | reflexivity].
  - eauto.
Qed.
End DecodedRecord.

(** *** The tag map *)

Lemma eqb_pixel (tag : string) :
  String.eqb tag "x7fe00010" = bool_decide (tag = pixelDataTag).
Proof.
  unfold pixelDataTag. destruct (String.eqb_spec tag "x7fe00010").
  - now rewrite bool_decide_eq_true_2.
  - now rewrite bool_decide_eq_false_2.
Qed.

Lemma extractMetadata_lookup (dataSet : DataSet) (elements : list (string * Element))
    (acc m : gmap string DicomTag) (k : string) :
  extractMetadata dataSet elements acc = Normal m ->
  (k ∉ metadataTags elements -> m !! k = acc !! k)
  /\ (k ∈ metadataTags elements -> is_Some (m !! k)).
Proof.
  revert acc. induction elements as [|[tag element] rest IH]; intros acc Hm.
  - cbn in Hm. injection Hm as <-. split; [reflexivity|].
    unfold metadataTags. cbn. intros H. inversion H.
  - cbn [extractMetadata] in Hm. rewrite eqb_pixel in Hm.
    unfold metadataTags in *. cbn [map fst].
    destruct (bool_decide (tag = pixelDataTag)) eqn:E.
    + apply bool_decide_eq_true_1 in E.
      rewrite filter_cons_False by (intros H; apply H; exact E).
      apply IH, Hm.
    + apply bool_decide_eq_false_1 in E.
      rewrite filter_cons_True by exact E.
      destruct (tagValue_normal dataSet tag element) as [v Hv].
      rewrite Hv, bind_Normal in Hm.
      destruct (IH _ Hm) as [Hout Hin]. split.
      * intros Hk. rewrite Hout by (intros H; apply Hk; now right).
        apply lookup_insert_ne. intros ->. apply Hk. now left.
      * intros Hk. destruct (decide (k ∈ filter (λ t, t ≠ pixelDataTag) rest.*1))
          as [Hr|Hr]; [now apply Hin|].
        rewrite Hout by exact Hr.
        apply elem_of_cons in Hk as [->|Hk]; [|contradiction].
        rewrite lookup_insert_eq. eauto.
Qed.

Lemma extractMetadata_entries (dataSet : DataSet) (elements : list (string * Element))
    (acc m : gmap string DicomTag) :
  extractMetadata dataSet elements acc = Normal m ->
  (forall k e, acc !! k = Some e ->
     tag e = formatTagString k
     /\ name e = orDefault (dictionaryLookup TAG_DICTIONARY k) (formatTagString k)) ->
  forall k e, m !! k = Some e ->
    tag e = formatTagString k
    /\ name e = orDefault (dictionaryLookup TAG_DICTIONARY k) (formatTagString k).
Proof.
  revert acc. induction elements as [|[t element] rest IH]; intros acc Hm Hacc.
  - cbn in Hm. injection Hm as <-. exact Hacc.
  - cbn [extractMetadata] in Hm.
    destruct (String.eqb t "x7fe00010"); [eapply IH; eauto|].
    destruct (tagValue_normal dataSet t element) as [v Hv].
    rewrite Hv, bind_Normal in Hm.
    eapply IH; [exact Hm|].
    intros k e. destruct (decide (t = k)) as [->|Hne].
    + rewrite lookup_insert_eq. intros H. injection H as <-. cbn. auto.
    + rewrite lookup_insert_ne by exact Hne. apply Hacc.
Qed.

Section TagMap.
Variable parseDicom : list Byte.byte -> completion DataSet.

(** X4. The tag map of a decoded record has an entry for every element of
    the data set but the pixel data, and for nothing else; every entry
    shows its key in the form (GGGG,EEEE) and is named from the dictionary,
    or by that form when the dictionary does not know the tag. *)
Theorem metadata_covers_elements (arrayBuffer : list Byte.byte) (filePath : string)
    (file : ParsedDicomFile) (dataSet : DataSet) :
  parseDicomFile parseDicom arrayBuffer filePath = Normal (Some file) ->
  parseDicom arrayBuffer = Normal dataSet ->
  Parsed.metadata file !! pixelDataTag = None
  /\ (forall k, is_Some (Parsed.metadata file !! k)
                <-> k ∈ map fst (ds_elements dataSet) /\ k <> pixelDataTag)
  /\ (forall k e, Parsed.metadata file !! k = Some e ->
        tag e = formatTagString k
        /\ name e = orDefault (dictionaryLookup TAG_DICTIONARY k) (formatTagString k)).
Proof.
  intros Hr Hds. destruct (parseDicomFile_Some _ _ _ _ Hr)
    as (ds & a & b & c & m & Hds' & _ & _ & _ & Hm & ->).
  rewrite Hds in Hds'. injection Hds' as <-. cbn [Parsed.metadata].
  assert (forall k, k ∈ metadataTags (ds_elements dataSet)
                    <-> k ∈ map fst (ds_elements dataSet) /\ k <> pixelDataTag) as Htags.
  { intros k. unfold metadataTags. rewrite list_elem_of_filter. tauto. }
  split; [|split].
  - destruct (extractMetadata_lookup _ _ _ _ pixelDataTag Hm) as [Hout _].
    rewrite Hout; [apply lookup_empty|].
    rewrite Htags. intros [_ H]. now apply H.
  - intros k. destruct (extractMetadata_lookup _ _ _ _ k Hm) as [Hout Hin].
    rewrite <- Htags. split; [|exact Hin].
    intros Hs. destruct (decide (k ∈ metadataTags (ds_elements dataSet))); [assumption|].
    rewrite Hout, lookup_empty in Hs by assumption. now destruct Hs.
  - eapply extractMetadata_entries; [exact Hm|].
    intros k e. rewrite lookup_empty. discriminate.
Qed.
End TagMap.

Lemma extractMetadata_entry (dataSet : DataSet) (elements : list (string * Element))
    (acc m : gmap string DicomTag) (t : string) (element : Element) :
  NoDup (map fst elements) ->
  (t, element) ∈ elements ->
  t <> pixelDataTag ->
  extractMetadata dataSet elements acc = Normal m ->
  exists v,
    tagValue dataSet t element = Normal v
    /\ m !! t = Some {| tag := formatTagString t;
                        vr := orDefault (el_vr element) "UN";
                        name := orDefault (dictionaryLookup TAG_DICTIONARY t)
                                          (formatTagString t);
                        value := v |}.
Proof.
  revert acc. induction elements as [|[t' element'] rest IH]; intros acc Hnd Hin Hpx Hm.
  - inversion Hin.
  - cbn [map fst] in Hnd. apply NoDup_cons in Hnd as [Hfresh Hnd].
    cbn [extractMetadata] in Hm. rewrite eqb_pixel in Hm.
    apply elem_of_cons in Hin as [Heq|Hin].
    + injection Heq as <- <-.
      rewrite bool_decide_eq_false_2 in Hm by exact Hpx.
      destruct (tagValue_normal dataSet t element) as [v Hv].
      rewrite Hv, bind_Normal in Hm. exists v. split; [exact Hv|].
      destruct (extractMetadata_lookup _ _ _ _ t Hm) as [Hout _].
      rewrite Hout; [apply lookup_insert_eq|].
      unfold metadataTags. rewrite list_elem_of_filter. intros [_ H].
      apply Hfresh, H.
    + destruct (bool_decide (t' = pixelDataTag)); [eapply IH; eauto|].
      destruct (tagValue_normal dataSet t' element') as [v' Hv'].
      rewrite Hv', bind_Normal in Hm. eapply IH; eauto.
Qed.

Section TagValues.
Variable parseDicom : list Byte.byte -> completion DataSet.

(** X5. In the tag map a sequence is shown as the text [[Sequence]], and an
    element longer than 256 bytes as a text that gives its length; neither
    is read.  A shorter element that cannot be read has the value [null],
    and the decode goes on. *)
Theorem metadata_placeholders (arrayBuffer : list Byte.byte) (filePath : string)
    (file : ParsedDicomFile) (dataSet : DataSet) (t : string) (element : Element) :
  parseDicomFile parseDicom arrayBuffer filePath = Normal (Some file) ->
  parseDicom arrayBuffer = Normal dataSet ->
  NoDup (map fst (ds_elements dataSet)) ->
  (t, element) ∈ ds_elements dataSet ->
  t <> pixelDataTag ->
  exists e,
    Parsed.metadata file !! t = Some e
    /\ vr e = orDefault (el_vr element) "UN"
    /\ (el_vr element = Some "SQ" -> value e = TagString "[Sequence]")
    /\ (el_vr element <> Some "SQ" -> 256 < el_length element ->
        value e = TagString ("[Binary data: " ++ pretty (el_length element) ++ " bytes]"))
    /\ (el_vr element <> Some "SQ" -> el_length element <= 256 ->
        ds_string dataSet t = Throw \/ ds_string dataSet t = Normal None ->
        value e = TagNull).
Proof.
  intros Hr Hds Hnd Hin Hpx. destruct (parseDicomFile_Some _ _ _ _ Hr)
    as (ds & a & b & c & m & Hds' & _ & _ & _ & Hm & ->).
  rewrite Hds in Hds'. injection Hds' as <-. cbn [Parsed.metadata].
  destruct (extractMetadata_entry _ _ _ _ _ _ Hnd Hin Hpx Hm) as (v & Hv & Hlook).
  eexists. split; [exact Hlook|]. cbn [vr value]. split; [reflexivity|].
  unfold tagValue in Hv. split; [|split].
  - intros Hsq. rewrite bool_decide_eq_true_2 in Hv by exact Hsq.
    cbn in Hv. now injection Hv as <-.
  - intros Hsq Hlen. rewrite bool_decide_eq_false_2 in Hv by exact Hsq.
    rewrite (proj2 (Z.ltb_lt _ _) Hlen) in Hv. cbn in Hv. now injection Hv as <-.
  - intros Hsq Hlen Hread. rewrite bool_decide_eq_false_2 in Hv by exact Hsq.
    rewrite (proj2 (Z.ltb_ge _ _) Hlen) in Hv.
    destruct Hread as [Hread|Hread]; rewrite Hread in Hv; cbn in Hv;
      now injection Hv as <-.
Qed.
End TagValues.

(** *** Texts *)

Lemma trimStart_startsClean (s : string) : startsClean (trimStart s).
Proof.
  induction s as [|c r IH]; cbn; [exact I|].
  destruct (isWhiteSpace c) eqn:E; [exact IH | cbn; exact E].
Qed.

Lemma trimStart_clean (s : string) : startsClean s -> trimStart s = s.
Proof. destruct s as [|c r]; cbn; [reflexivity|]. now intros ->. Qed.

Lemma trimEnd_startsClean (s : string) : startsClean s -> startsClean (trimEnd s).
Proof.
  destruct s as [|c r]; cbn; [auto|]. intros Hc.
  destruct (trimEnd r); [rewrite Hc|]; cbn; exact Hc.
Qed.

Lemma trimEnd_cons (c c' : ascii) (r r' : string) :
  trimEnd r = String c' r' -> trimEnd (String c r) = String c (String c' r').
Proof. cbn. now intros ->. Qed.

Lemma trimEnd_idempotent (s : string) : trimEnd (trimEnd s) = trimEnd s.
Proof.
  induction s as [|c r IH]; cbn; [reflexivity|].
  destruct (trimEnd r) as [|c' r'] eqn:E.
  - destruct (isWhiteSpace c) eqn:Ec; cbn; [reflexivity|]. now rewrite Ec.
  - apply trimEnd_cons, IH.
Qed.

Lemma trim_idempotent (s : string) : trim (trim s) = trim s.
Proof.
  unfold trim.
  rewrite (trimStart_clean (trimEnd (trimStart s)))
    by apply trimEnd_startsClean, trimStart_startsClean.
  apply trimEnd_idempotent.
Qed.

(** X6. [getString] completes normally on every data set and tag, and a
    text it returns has no white space at either end. *)
Theorem getString_trimmed (dataSet : DataSet) (tag : string) :
  exists r, getString dataSet tag = Normal r
            /\ match r with Some v => trim v = v | None => True end.
Proof.
  rewrite getString_spec. eexists. split; [reflexivity|].
  destruct (ds_string dataSet tag) as [[v|]|]; auto. apply trim_idempotent.
Qed.

Lemma includes_trimStart (c : ascii) (s : string) :
  includes c (trimStart s) = true -> includes c s = true.
Proof.
  unfold includes. induction s as [|d r IH]; cbn; [auto|].
  destruct (isWhiteSpace d); cbn; [|auto].
  intros H. rewrite IH by exact H. apply orb_true_r.
Qed.

Lemma includes_trimEnd (c : ascii) (s : string) :
  includes c (trimEnd s) = true -> includes c s = true.
Proof.
  unfold includes. induction s as [|d r IH]; cbn; [auto|].
  destruct (trimEnd r) as [|d' r'] eqn:E.
  - destruct (isWhiteSpace d); cbn; [discriminate|].
    rewrite orb_false_r. intros ->. reflexivity.
  - cbn [list_ascii_of_string existsb]. intros H.
    apply orb_true_iff in H as [H|H]; [now rewrite H|].
    rewrite IH by exact H. apply orb_true_r.
Qed.

Lemma replaceCarets_no_caret (s : string) : includes "^" (replaceCarets s) = false.
Proof.
  unfold includes. induction s as [|d r IH]; [reflexivity|].
  cbn [replaceCarets list_ascii_of_string existsb].
  rewrite IH, orb_false_r.
  destruct (Ascii.eqb_spec d "^") as [->|Hne]; [reflexivity|].
  apply Ascii.eqb_neq. congruence.
Qed.

(** X7. A formatted patient name holds no caret and no white space at
    either end; an absent or empty name is formatted as [null]. *)
Theorem formatPatientName_clean (name : option string) :
  match formatPatientName name with
  | Some r =>
      includes "^" r = false /\ trim r = r
      /\ exists n, name = Some n /\ nonEmpty n = true
  | None => name = None \/ name = Some EmptyString
  end.
Proof.
  destruct name as [[|c n]|]; cbn [formatPatientName nonEmpty]; auto.
  split; [|split; [apply trim_idempotent | eauto]].
  destruct (includes "^" (trim (replaceCarets (String c n)))) eqn:E; [|reflexivity].
  unfold trim in E. apply includes_trimEnd, includes_trimStart in E.
  now rewrite replaceCarets_no_caret in E.
Qed.

Lemma toUpperCase_app (a b : string) :
  toUpperCase (a ++ b) = toUpperCase a ++ toUpperCase b.
Proof. induction a as [|c a IH]; simpl; [reflexivity|]. now rewrite IH. Qed.

Lemma toUpperChar_idempotent (c : ascii) : toUpperChar (toUpperChar c) = toUpperChar c.
Proof.
  destruct c as [[] [] [] [] [] [] [] []]; reflexivity.
Qed.

Lemma toUpperCase_idempotent (s : string) : toUpperCase (toUpperCase s) = toUpperCase s.
Proof.
  induction s as [|c s IH]; cbn [toUpperCase]; [reflexivity|].
  now rewrite toUpperChar_idempotent, IH.
Qed.

(** X8. A tag key [x] + four characters of group + the element is shown as
    [(GGGG,EEEE)] in upper case, and showing it again changes nothing. *)
Theorem formatTagString_shape (group element : string) :
  String.length group = 4%nat ->
  formatTagString ("x" ++ group ++ element)
  = "(" ++ toUpperCase group ++ "," ++ toUpperCase element ++ ")"
  /\ toUpperCase (formatTagString ("x" ++ group ++ element))
     = formatTagString ("x" ++ group ++ element)
  /\ formatTagString (formatTagString ("x" ++ group ++ element))
     = formatTagString ("x" ++ group ++ element).
Proof.
  intros Hlen.
  destruct group as [|a [|b [|c [|d [|? ?]]]]]; try discriminate Hlen.
  assert (formatTagString ("x" ++ String a (String b (String c (String d EmptyString))) ++ element)
          = "(" ++ toUpperCase (String a (String b (String c (String d EmptyString))))
                ++ "," ++ toUpperCase element ++ ")") as E.
  { transitivity
      (toUpperCase
         ("(" ++ String a (String b (String c (String d (String.substring 0 0 element))))
              ++ "," ++ element ++ ")")); [reflexivity|].
    replace (String.substring 0 0 element) with EmptyString by (now destruct element).
    transitivity
      (String "(" (String (toUpperChar a) (String (toUpperChar b)
         (String (toUpperChar c) (String (toUpperChar d)
            (String "," (toUpperCase (element ++ ")")))))))); [reflexivity|].
    rewrite toUpperCase_app. reflexivity. }
  rewrite E. split; [reflexivity|]. split.
  - rewrite !toUpperCase_app, !toUpperCase_idempotent. reflexivity.
  - reflexivity.
Qed.

(** *** The order of the sorted instances *)

#[local] Arguments Num.gtb : simpl never.

Lemma inOrder_notAfter (a b : DicomInstance) :
  inOrder compareInstances a b <-> notAfter a b.
Proof.
  unfold inOrder, notAfter, sortCompare.
  destruct (compareInstances a b); simpl; split; auto.
Qed.

Lemma Sorted_neighbours {A} (R : A -> A -> Prop) (l : list A) :
  Sorted R l <-> neighbours R l.
Proof.
  unfold neighbours. split.
  - induction 1 as [|x l Hs IH Hd]; intros i a b Ha Hb; [discriminate|].
    destruct i as [|i]; cbn in *.
    + injection Ha as <-. destruct Hd as [|y l Hxy]; [discriminate|].
      cbn in Hb. now injection Hb as <-.
    + eapply IH; eauto.
  - induction l as [|x l IH]; intros H; [constructor|].
    constructor.
    + apply IH. intros i a b Ha Hb. apply (H (S i) a b); assumption.
    + destruct l as [|y l]; constructor. apply (H 0%nat x y); reflexivity.
Qed.

Lemma sortInstances_notAfter (instances : list DicomInstance) :
  Sorted notAfter (sortInstances instances).
Proof.
  eapply Sorted_ind with (P := fun l => Sorted notAfter l);
    [constructor | | apply (sort_sorted compareInstances compareInstances_swap)].
  intros a l _ IH Hd. constructor; [exact IH|].
  destruct Hd; constructor. now apply inOrder_notAfter.
Qed.

(** X9. In the output of [sortInstances] no instance is followed by one
    that the comparator puts before it. *)
Theorem sortInstances_neighbours (instances : list DicomInstance) :
  neighbours notAfter (sortInstances instances).
Proof. apply Sorted_neighbours, sortInstances_notAfter. Qed.

(** X10. A list in which no instance is followed by one that the comparator
    puts before it is returned as it is. *)
Theorem sortInstances_keeps_order (instances : list DicomInstance) :
  neighbours notAfter instances -> sortInstances instances = instances.
Proof.
  intros H. apply sort_fixed. apply Sorted_neighbours in H.
  induction H as [|a l _ IH Hd]; constructor; [exact IH|].
  destruct Hd; constructor. now apply inOrder_notAfter.
Qed.

Lemma sortInstances_keeps_order_witness :
  sortInstances [farA; farB; farC] = [farA; farB; farC].
Proof.
  apply sortInstances_keeps_order.
  intros [|[|[|i]]] a b Ha Hb; cbn in Ha, Hb; try discriminate;
    injection Ha as <-; injection Hb as <-; reflexivity.
Defined.

Lemma gtb_Fin_zero_false (q : Q) : (Fin q >? ofZ 0)%num = false <-> (q <= 0)%Q.
Proof.
  unfold gtb, ltb, ofZ. change (inject_Z 0) with 0%Q.
  qcmp; split; intros; try discriminate; auto; try lra; exfalso; lra.
Qed.

Lemma Forall_sortInstances (P : DicomInstance -> Prop) (l : list DicomInstance) :
  Forall P l -> Forall P (sortInstances l).
Proof.
  intros H. eapply Permutation_Forall; [apply sort_perm | exact H].
Qed.

(** X11. Instances that carry an instance number and neither position nor
    slice location come out in non-decreasing order of instance number. *)
Theorem sortInstances_by_number (instances : list DicomInstance) :
  Forall (fun a => exists n, numberedOnly a n) instances ->
  neighbours (fun a b => exists n m, numberedOnly a n /\ numberedOnly b m /\ (n <= m)%Q)
             (sortInstances instances).
Proof.
  intros Hall i a b Ha Hb.
  pose proof (proj1 (Sorted_neighbours _ _) (sortInstances_notAfter instances)
                i a b Ha Hb) as Hab.
  apply Forall_sortInstances in Hall. rewrite Forall_forall in Hall.
  destruct (Hall a) as (n & Hn); [eapply list_elem_of_lookup_2; eauto|].
  destruct (Hall b) as (m & Hm); [eapply list_elem_of_lookup_2; eauto|].
  exists n, m. split; [exact Hn|]. split; [exact Hm|].
  destruct Hn as (Hp & Hs & Hi), Hm as (Hp' & Hs' & Hi').
  unfold notAfter in Hab. rewrite compareInstances_steps in Hab.
  unfold zKey in Hab. rewrite Hp, Hp', Hs, Hs', Hi, Hi' in Hab.
  cbn [fmap option_fmap option_map toleranceStep toleranceLevel exactStep exactLevel sub] in Hab.
  apply gtb_Fin_zero_false in Hab. lra.
Qed.

(** X12. Instances that all carry a finite Z position come out with Z never
    falling by more than the tolerance from one to the next. *)
Theorem sortInstances_by_position (instances : list DicomInstance) :
  Forall (fun a => exists z, positionedAt a z) instances ->
  neighbours (fun a b => exists z z', positionedAt a z /\ positionedAt b z'
                                      /\ (z - z' <= 1 # 1000)%Q)
             (sortInstances instances).
Proof.
  intros Hall i a b Ha Hb.
  pose proof (proj1 (Sorted_neighbours _ _) (sortInstances_notAfter instances)
                i a b Ha Hb) as Hab.
  apply Forall_sortInstances in Hall. rewrite Forall_forall in Hall.
  destruct (Hall a) as (z & Hz); [eapply list_elem_of_lookup_2; eauto|].
  destruct (Hall b) as (z' & Hz'); [eapply list_elem_of_lookup_2; eauto|].
  exists z, z'. split; [exact Hz|]. split; [exact Hz'|].
  unfold positionedAt in Hz, Hz'.
  unfold notAfter in Hab. rewrite compareInstances_steps in Hab.
  rewrite Hz, Hz' in Hab. unfold toleranceStep, toleranceLevel in Hab.
  destruct (abs (Fin z - Fin z') >? tolerance)%num eqn:E.
  - cbn [sub] in Hab. apply gtb_Fin_zero_false in Hab. lra.
  - destruct (Qlt_le_dec (1 # 1000) (z - z')) as [Hgt|Hle]; [|exact Hle].
    rewrite (proj2 (gt_tolerance_Fin z z')) in E by (left; exact Hgt). discriminate.
Qed.

(** *** The grouped tree *)

Lemma filesOfSeries_nil (k s : string) (files : list ParsedDicomFile) :
  filesOfStudy k files = [] -> filesOfSeries k s files = [].
Proof.
  unfold filesOfStudy, filesOfSeries. induction files as [|f l IH]; [reflexivity|].
  intros H. destruct (decide (Parsed.studyInstanceUID f = k)) as [E|E].
  - rewrite filter_cons_True in H by exact E. discriminate.
  - rewrite filter_cons_False in H by exact E.
    rewrite filter_cons_False by tauto. auto.
Qed.

Lemma setSeries_setSeries (st : DicomStudy) (m m' : gmap string DicomSeries) :
  setSeries (setSeries st m) m' = setSeries st m'.
Proof. reflexivity. Qed.

Lemma foldl_addFile_built (files : list ParsedDicomFile) (k : string) :
  studyBuilt k files (foldl addFile ∅ files !! k).
Proof.
  induction files as [|f files IH] using rev_ind.
  - unfold studyBuilt. cbn. apply lookup_empty.
  - rewrite foldl_app. cbn [foldl].
    set (raw := foldl addFile ∅ files) in *.
    unfold studyBuilt in *. unfold filesOfStudy in *.
    rewrite filter_app.
    destruct (decide (Parsed.studyInstanceUID f = k)) as [Ek|Ek].
    + (* the file belongs to the study *)
      rewrite (filter_cons_True _ f []) by exact Ek. rewrite filter_nil.
      assert (forall s, filesOfSeries k s (files ++ [f]) =
                        (filesOfSeries k s files ++
                         (if decide (Parsed.seriesInstanceUID f = s) then [f] else []))%list)
        as Hser.
      { intros s. unfold filesOfSeries. rewrite filter_app. f_equal.
        destruct (decide (Parsed.seriesInstanceUID f = s)) as [Es|Es].
        - rewrite filter_cons_True by tauto. reflexivity.
        - rewrite filter_cons_False by tauto. reflexivity. }
      destruct (filter (λ f0, Parsed.studyInstanceUID f0 = k) files) as [|f0 rest] eqn:Efs.
      * (* first file of the study *)
        rewrite addFile_new_study by (rewrite Ek; exact IH).
        rewrite Ek, lookup_insert_eq. cbn [app].
        eexists. split; [reflexivity|]. split; [reflexivity|].
        intros s. cbn [Study.series setSeries]. unfold seriesOf. rewrite Hser.
        rewrite (filesOfSeries_nil k s files) by exact Efs. cbn [app].
        destruct (decide (Parsed.seriesInstanceUID f = s)) as [Es|Es].
        -- rewrite Es, lookup_insert_eq. reflexivity.
        -- rewrite lookup_insert_ne by exact Es. apply lookup_empty.
      * destruct IH as (study & Hlook & Hfields & Hseries).
        cbn [app]. fold raw in Hlook.
        destruct (Study.series study !! Parsed.seriesInstanceUID f) as [series|] eqn:Es0.
        -- (* known series *)
           rewrite (addFile_known_series raw f study series)
             by (rewrite ?Ek; assumption).
           rewrite Ek, lookup_insert_eq.
           eexists. split; [reflexivity|]. split; [exact Hfields|].
           intros s. cbn [Study.series setSeries]. unfold seriesOf. rewrite Hser.
           destruct (decide (Parsed.seriesInstanceUID f = s)) as [Es|Es].
           ++ rewrite Es, lookup_insert_eq.
              rewrite Hseries, Es in Es0. unfold seriesOf in Es0.
              destruct (filesOfSeries k s files) as [|g gs] eqn:Eg; [discriminate|].
              injection Es0 as <-. rewrite map_app. reflexivity.
           ++ rewrite lookup_insert_ne by exact Es. rewrite app_nil_r. apply Hseries.
        -- (* first file of the series *)
           rewrite (addFile_new_series raw f study)
             by (rewrite ?Ek; assumption).
           rewrite Ek, lookup_insert_eq.
           eexists. split; [reflexivity|]. split; [exact Hfields|].
           intros s. cbn [Study.series setSeries]. unfold seriesOf. rewrite Hser.
           destruct (decide (Parsed.seriesInstanceUID f = s)) as [Es|Es].
           ++ rewrite Es, lookup_insert_eq.
              rewrite Hseries, Es in Es0. unfold seriesOf in Es0.
              destruct (filesOfSeries k s files) as [|g gs] eqn:Eg; [|discriminate].
              reflexivity.
           ++ rewrite lookup_insert_ne by exact Es. rewrite app_nil_r. apply Hseries.
    + (* another study *)
      rewrite (filter_cons_False _ f []) by exact Ek. rewrite filter_nil, app_nil_r.
      assert (addFile raw f !! k = raw !! k) as ->.
      { unfold addFile. apply lookup_insert_ne. exact Ek. }
      assert (forall s, filesOfSeries k s (files ++ [f]) = filesOfSeries k s files) as Hser.
      { intros s. unfold filesOfSeries. rewrite filter_app.
        rewrite (filter_cons_False _ f []) by tauto. apply app_nil_r. }
      destruct (filter (λ f0, Parsed.studyInstanceUID f0 = k) files); [exact IH|].
      destruct IH as (study & Hlook & Hfields & Hseries).
      exists study. split; [exact Hlook|]. split; [exact Hfields|].
      intros s. unfold seriesOf. rewrite Hser. apply Hseries.
Qed.

Lemma groupDicomFiles_lookup (files : list ParsedDicomFile) (k : string) :
  groupDicomFiles files !! k =
  (fun study => setSeries study (sortSeries <$> Study.series study))
    <$> (foldl addFile ∅ files !! k).
Proof. unfold groupDicomFiles. apply lookup_fmap. Qed.

(** X13. A study of the grouped tree exists for exactly the study UIDs of
    the files, and its descriptive fields are those of the first file of
    the study. *)
Theorem groupDicomFiles_study (files : list ParsedDicomFile) (k : string) :
  match filesOfStudy k files with
  | [] => groupDicomFiles files !! k = None
  | f0 :: _ =>
      exists study,
        groupDicomFiles files !! k = Some study
        /\ Study.studyInstanceUID study = k
        /\ setSeries study ∅ = newStudy f0
  end.
Proof.
  rewrite groupDicomFiles_lookup.
  pose proof (foldl_addFile_built files k) as H. unfold studyBuilt in H.
  destruct (filesOfStudy k files) as [|f0 rest] eqn:E.
  - now rewrite H.
  - destruct H as (study & -> & Hfields & _). eexists. split; [reflexivity|].
    cbn [setSeries Study.studyInstanceUID]. rewrite setSeries_setSeries.
    split; [|exact Hfields].
    assert (f0 ∈ filesOfStudy k files) as Hin by (rewrite E; left).
    apply list_elem_of_filter in Hin as [<- _].
    change (Study.studyInstanceUID study) with (Study.studyInstanceUID (setSeries study ∅)).
    now rewrite Hfields.
Qed.

(** X14. A series of the grouped tree exists for exactly the (study, series)
    UID pairs of the files.  It holds the instances of all the files of
    the pair, in the order of the files and with repetitions, and their
    sorted list; its descriptive fields are those of the first file of the
    pair. *)
Theorem groupDicomFiles_series (files : list ParsedDicomFile) (k s : string) :
  match filesOfSeries k s files with
  | [] => forall study, groupDicomFiles files !! k = Some study ->
                        Study.series study !! s = None
  | g :: _ =>
      exists study series,
        groupDicomFiles files !! k = Some study
        /\ Study.series study !! s = Some series
        /\ Series.instances series = map Parsed.instance (filesOfSeries k s files)
        /\ Series.sortedInstances series
           = sortInstances (map Parsed.instance (filesOfSeries k s files))
        /\ Series.seriesInstanceUID series = s
        /\ Series.studyInstanceUID series = k
        /\ Series.seriesNumber series = SeriesInfo.seriesNumber (Parsed.seriesInfo g)
        /\ Series.seriesDescription series
           = SeriesInfo.seriesDescription (Parsed.seriesInfo g)
        /\ Series.modality series
           = orDefault (SeriesInfo.modality (Parsed.seriesInfo g)) "OT"
  end.
Proof.
  rewrite groupDicomFiles_lookup.
  pose proof (foldl_addFile_built files k) as H. unfold studyBuilt in H.
  destruct (filesOfSeries k s files) as [|g gs] eqn:Eg.
  - intros study Hs.
    destruct (filesOfStudy k files) as [|f0 rest].
    + rewrite H in Hs. discriminate.
    + destruct H as (st & Hst & _ & Hser). rewrite Hst in Hs. injection Hs as <-.
      cbn [Study.series setSeries]. rewrite lookup_fmap, Hser.
      unfold seriesOf. now rewrite Eg.
  - assert (g ∈ filesOfSeries k s files) as Hin by (rewrite Eg; left).
    apply list_elem_of_filter in Hin as [[Hk Hs] Hg].
    destruct (filesOfStudy k files) as [|f0 rest] eqn:Ef.
    + exfalso. assert (g ∈ filesOfStudy k files) as Hin'
        by (apply list_elem_of_filter; auto).
      rewrite Ef in Hin'. inversion Hin'.
    + destruct H as (st & -> & _ & Hser).
      eexists. exists (sortSeries (setInstances (newSeries g)
                                     (map Parsed.instance (g :: gs)))).
      split; [reflexivity|].
      cbn [Study.series setSeries]. rewrite lookup_fmap, Hser.
      unfold seriesOf. rewrite Eg.
      repeat split; auto.
Qed.

Lemma groupDicomFiles_found (files : list ParsedDicomFile) (k s : string)
    (study : DicomStudy) (series : DicomSeries) :
  groupDicomFiles files !! k = Some study ->
  Study.series study !! s = Some series ->
  Study.studyInstanceUID study = k
  /\ exists g gs,
       filesOfSeries k s files = g :: gs
       /\ series = sortSeries (setInstances (newSeries g)
                                (map Parsed.instance (g :: gs))).
Proof.
  intros Hst Hse. rewrite groupDicomFiles_lookup in Hst.
  pose proof (foldl_addFile_built files k) as H. unfold studyBuilt in H.
  destruct (filesOfStudy k files) as [|f0 rest] eqn:Ef.
  - rewrite H in Hst. discriminate.
  - destruct H as (st & Hlook & Hfields & Hser). rewrite Hlook in Hst.
    injection Hst as <-. cbn [Study.series setSeries Study.studyInstanceUID] in *.
    rewrite lookup_fmap, Hser in Hse. unfold seriesOf in Hse.
    destruct (filesOfSeries k s files) as [|g gs] eqn:Eg; [discriminate|].
    injection Hse as <-.
    assert (f0 ∈ filesOfStudy k files) as Hin0 by (rewrite Ef; left).
    apply list_elem_of_filter in Hin0 as [Hk0 _].
    split; [|eauto].
    change (Study.studyInstanceUID st) with (Study.studyInstanceUID (setSeries st ∅)).
    now rewrite Hfields.
Qed.

Lemma filesOfSeries_head (files : list ParsedDicomFile) (k s : string)
    (g : ParsedDicomFile) (gs : list ParsedDicomFile) :
  filesOfSeries k s files = g :: gs ->
  Parsed.studyInstanceUID g = k /\ Parsed.seriesInstanceUID g = s.
Proof.
  intros Eg. assert (g ∈ filesOfSeries k s files) as Hin by (rewrite Eg; left).
  apply list_elem_of_filter in Hin as [H _]. exact H.
Qed.

(** X15. In the grouped tree every study is stored under its own UID and
    every series under its own UID, with the UID of its study; no series
    is empty, and its sorted list is a permutation of its instance list in
    which no instance is followed by one the comparator puts before it. *)
Theorem groupDicomFiles_invariants (files : list ParsedDicomFile) (k s : string)
    (study : DicomStudy) (series : DicomSeries) :
  groupDicomFiles files !! k = Some study ->
  Study.series study !! s = Some series ->
  Study.studyInstanceUID study = k
  /\ Series.seriesInstanceUID series = s
  /\ Series.studyInstanceUID series = k
  /\ Series.instances series <> []
  /\ Permutation (Series.instances series) (Series.sortedInstances series)
  /\ neighbours notAfter (Series.sortedInstances series).
Proof.
  intros Hst Hse.
  destruct (groupDicomFiles_found files k s study series Hst Hse)
    as (Hku & g & gs & Eg & ->).
  destruct (filesOfSeries_head files k s g gs Eg) as [Hk Hs].
  split; [exact Hku|].
  cbn [sortSeries setSortedInstances setInstances newSeries
       Series.seriesInstanceUID Series.studyInstanceUID Series.instances
       Series.sortedInstances].
  split; [exact Hs|]. split; [exact Hk|]. split; [discriminate|].
  split; [apply (sort_perm compareInstances)|].
  apply Sorted_neighbours, sortInstances_notAfter.
Qed.

(** *** The rendered frame *)

#[local] Arguments Num.gtb : simpl nomatch.
#[local] Arguments Num.leb : simpl nomatch.
#[local] Arguments Num.geb : simpl nomatch.

Lemma bind_inv {A B} (m : completion A) (f : A -> completion B) (b : B) :
  (m ≫= f) = Normal b -> exists a, m = Normal a /\ f a = Normal b.
Proof. destruct m as [a|]; [eauto | discriminate]. Qed.

Lemma toUint8Clamp_range (x : number) : 0 <= toUint8Clamp x <= 255.
Proof. destruct x as [|[]|q]; cbn; lia. Qed.

Lemma renderPixels_bytes (count : nat) (i : Z) (pixelData : list Byte.byte)
    (bytesPerPixel : number) (isSigned : bool)
    (rescaleSlope rescaleIntercept wc ww : number) (data : list Z) :
  renderPixels count i pixelData bytesPerPixel isSigned
    rescaleSlope rescaleIntercept wc ww = Normal data ->
  length data = (4 * count)%nat /\ Forall (fun b => 0 <= b <= 255) data.
Proof.
  revert i data. induction count as [|count IH]; intros i data Hrun.
  - cbn in Hrun. injection Hrun as <-. split; [reflexivity | constructor].
  - cbn [renderPixels] in Hrun.
    apply bind_inv in Hrun as (pv & _ & Hrun).
    apply bind_inv in Hrun as (rest & Hrest & Hrun).
    injection Hrun as <-. destruct (IH _ _ Hrest) as [Hlen Hall].
    split.
    + cbn [length]. rewrite Hlen. lia.
    + pose proof (toUint8Clamp_range
        (displayValue (modalityValue pv rescaleSlope rescaleIntercept) wc ww)).
      repeat (constructor; [lia|]). exact Hall.
Qed.

Section Frame.
Variable parseDicom : list Byte.byte -> completion DataSet.

(** X18. A frame that [renderImage] hands to the canvas has four bytes per
    pixel of the rows and columns it reports, every byte from 0 to 255;
    zoom and pan are left as they were. *)
Theorem renderImage_frame (viewerState viewerState' : ViewerState)
    (byteArray : list Byte.byte) (columns rows : Z) (data : list Z) :
  renderImage parseDicom viewerState byteArray
    = Rendered viewerState' columns rows data ->
  length data = (4 * Z.to_nat (rows * columns))%nat
  /\ Forall (fun b => 0 <= b <= 255) data
  /\ Viewer.zoom viewerState' = Viewer.zoom viewerState
  /\ Viewer.panX viewerState' = Viewer.panX viewerState
  /\ Viewer.panY viewerState' = Viewer.panY viewerState.
Proof.
  unfold renderImage.
  destruct (renderImageBody parseDicom viewerState byteArray)
    as [[[[vs cols] rws] dat]|] eqn:Hbody; [|discriminate].
  intros H. injection H as -> -> -> ->.
  unfold renderImageBody in Hbody.
  repeat (apply bind_inv in Hbody as (? & _ & Hbody)).
  destruct (selectWindow viewerState _ _) as [wc ww].
  destruct (dictionaryLookupElement _ _) as [element|]; [|discriminate].
  apply bind_inv in Hbody as (pixelData & _ & Hbody).
  apply bind_inv in Hbody as (dat & Hdat & Hbody).
  injection Hbody as <- <- <- <-.
  destruct (renderPixels_bytes _ _ _ _ _ _ _ _ _ _ Hdat) as [Hlen Hall].
  cbn. auto.
Qed.
End Frame.

Lemma renderImage_frame_witness :
  length [230; 230; 230; 255; 0; 0; 0; 255] = (4 * Z.to_nat (1 * 2))%nat.
Proof.
  apply (proj1 (renderImage_frame (fun _ => Normal (frameDataSet "40" "400"))
                  initialViewerState initialViewerState framePixels 2 1
                  [230; 230; 230; 255; 0; 0; 0; 255]
                  ltac:(vm_compute; reflexivity))).
Defined.

Lemma byteAt_inv (view : list Byte.byte) (i v : Z) :
  byteAt view i = Normal v -> 0 <= i < Z.of_nat (length view).
Proof.
  unfold byteAt. destruct (Z.ltb_spec i 0); [discriminate|].
  destruct (view !! Z.to_nat i) eqn:E; [|discriminate]. intros _.
  apply lookup_lt_Some in E. lia.
Qed.

Lemma renderPixels_reads_all (count : nat) (i : Z) (pixelData : list Byte.byte)
    (isSigned : bool) (rescaleSlope rescaleIntercept wc ww : number) (data : list Z) :
  0 <= i -> (0 < count)%nat ->
  renderPixels count i pixelData (ofZ 16 / ofZ 8)%num isSigned
    rescaleSlope rescaleIntercept wc ww = Normal data ->
  2 * (i + Z.of_nat count) <= Z.of_nat (length pixelData).
Proof.
  revert i data. induction count as [|count IH]; intros i data Hi Hc Hrun; [lia|].
  cbn [renderPixels] in Hrun.
  apply bind_inv in Hrun as (pv & Hpv & Hrun).
  apply bind_inv in Hrun as (rest & Hrest & _).
  destruct count as [|count].
  - change (readSample pixelData (ofZ 16 / ofZ 8)%num isSigned i)
      with (if isSigned then ofZ <$> getInt16 pixelData (i * 2)
            else ofZ <$> getUint16 pixelData (i * 2)) in Hpv.
    assert (exists u, getUint16 pixelData (i * 2) = Normal u) as (u & Hu).
    { destruct isSigned; unfold getInt16 in Hpv;
        destruct (getUint16 pixelData (i * 2)); try discriminate; eauto. }
    unfold getUint16 in Hu.
    apply bind_inv in Hu as (lo & _ & Hu).
    apply bind_inv in Hu as (hi & Hhi & _).
    apply byteAt_inv in Hhi. lia.
  - specialize (IH (i + 1) rest ltac:(lia) ltac:(lia) Hrest). lia.
Qed.

Lemma dataView_length (buffer view : list Byte.byte) (byteOffset byteLength : Z) :
  dataView buffer byteOffset byteLength = Normal view ->
  Z.of_nat (length view) = byteLength /\ 0 <= byteLength.
Proof.
  unfold dataView.
  destruct (Z.leb_spec 0 byteOffset); [|discriminate].
  destruct (Z.leb_spec 0 byteLength); [|discriminate].
  destruct (Z.leb_spec (byteOffset + byteLength) (Z.of_nat (length buffer)));
    [|discriminate].
  cbn. intros Heq. injection Heq as <-.
  rewrite length_take, length_drop. lia.
Qed.

Section FrameSamples.
Variable parseDicom : list Byte.byte -> completion DataSet.

(** X19. A frame of 16 bits per sample is rendered only when the pixel data
    element holds two bytes for each of its rows x columns samples; with
    fewer bytes [renderImage] ends in its error state. *)
Theorem renderImage_needs_all_samples (viewerState viewerState' : ViewerState)
    (byteArray : list Byte.byte) (dataSet : DataSet) (element : Element)
    (columns rows : Z) (data : list Z) :
  parseDicom byteArray = Normal dataSet ->
  uint16Or dataSet "x00280100" 16 = Normal 16 ->
  dictionaryLookupElement (ds_elements dataSet) "x7fe00010" = Some element ->
  renderImage parseDicom viewerState byteArray
    = Rendered viewerState' columns rows data ->
  2 * (rows * columns) <= el_length element.
Proof.
  intros Hds Hbits Hel. unfold renderImage.
  destruct (renderImageBody parseDicom viewerState byteArray)
    as [[[[vs cols] rws] dat]|] eqn:Hbody; [|discriminate].
  intros H. injection H as -> -> -> ->.
  unfold renderImageBody in Hbody. rewrite Hds, bind_Normal in Hbody.
  apply bind_inv in Hbody as (r & _ & Hbody).
  apply bind_inv in Hbody as (c & _ & Hbody).
  rewrite Hbits, bind_Normal in Hbody.
  repeat (apply bind_inv in Hbody as (? & _ & Hbody)).
  destruct (selectWindow viewerState _ _) as [wc ww].
  rewrite Hel in Hbody.
  apply bind_inv in Hbody as (pixelData & Hview & Hbody).
  apply bind_inv in Hbody as (dat & Hdat & Hbody).
  injection Hbody as <- <- <- <-.
  apply dataView_length in Hview as [Hlen Hpos].
  destruct (Z.to_nat (r * c)) as [|n] eqn:En; [lia|].
  apply renderPixels_reads_all in Hdat; lia.
Qed.
End FrameSamples.

(** *** The viewport *)

Lemma mathMax_Fin (p q : Q) : exists r, mathMax (Fin p) (Fin q) = Fin r
  /\ (p <= r)%Q /\ (q <= r)%Q /\ (r == p \/ r == q)%Q.
Proof.
  unfold mathMax. cbn [isNaN orb]. unfold ltb.
  destruct (Qcompare_spec p q); eexists; (split; [reflexivity|]);
    repeat split; try lra; auto; try (left; reflexivity); try (right; reflexivity).
Qed.

Lemma mathMin_Fin (p q : Q) : exists r, mathMin (Fin p) (Fin q) = Fin r
  /\ (r <= p)%Q /\ (r <= q)%Q /\ (r == p \/ r == q)%Q.
Proof.
  unfold mathMin. cbn [isNaN orb]. unfold ltb.
  destruct (Qcompare_spec q p); eexists; (split; [reflexivity|]);
    repeat split; try lra; auto; try (left; reflexivity); try (right; reflexivity).
Qed.

(** X20. A pointer drag with the window/level tool moves the center by the
    vertical delta and leaves a width that is at least 1. *)
Theorem window_drag_keeps_width_positive (deltaX deltaY c w : Q) (prev : ViewerState) :
  Viewer.windowCenter prev = Fin c ->
  Viewer.windowWidth prev = Fin w ->
  exists w',
    Viewer.windowWidth (dragUpdate Tool.windowLevel (Fin deltaX) (Fin deltaY) prev) = Fin w'
    /\ (1 <= w')%Q
    /\ (w' == 1 \/ w' == w + deltaX * 2)%Q
    /\ Viewer.windowCenter (dragUpdate Tool.windowLevel (Fin deltaX) (Fin deltaY) prev)
       = Fin (c + deltaY).
Proof.
  intros Hc Hw. cbn [dragUpdate setWindow Viewer.windowWidth Viewer.windowCenter].
  rewrite Hc, Hw. cbn [add mul]. unfold ofZ.
  destruct (mathMax_Fin (inject_Z 1) (w + deltaX * inject_Z 2)) as (r & -> & H1 & H2 & H3).
  exists r. change (inject_Z 1) with 1%Q in *. change (inject_Z 2) with 2%Q in *.
  repeat split; auto.
Qed.

Lemma finite_Fin (x : number) : isFinite x = true -> exists q, x = Fin q.
Proof. destruct x; try discriminate; eauto. Qed.

Lemma viewportStep_ok (st : Pointer * ViewerState) (e : ViewportEvent) :
  viewportOk st -> finiteEvent e -> viewportOk (viewportStep st e).
Proof.
  destruct st as [p s]. unfold viewportOk. cbn [fst snd].
  intros (Hx & Hy & Hpx & Hpy & z & Hz & Hz1 & Hz2) He.
  destruct e as [x y|tool x y| | | | | |wcStr wwStr]; cbn [viewportStep finiteEvent] in *.
  - destruct He as [Hfx Hfy]. cbn. eauto 10.
  - destruct He as [Hfx Hfy]. unfold handleMouseMove.
    destruct (isDragging p); cbn [negb fst snd]; [|eauto 10].
    cbn [lastX lastY]. split; [exact Hfx|]. split; [exact Hfy|].
    apply finite_Fin in Hx as (lx & Hlx), Hy as (ly & Hly),
      Hfx as (qx & ->), Hfy as (qy & ->), Hpx as (px & Hpx), Hpy as (py & Hpy).
    rewrite Hlx, Hly. cbn [sub].
    destruct tool; cbn [dragUpdate setWindow setPan setZoom
                         Viewer.panX Viewer.panY Viewer.zoom].
    + rewrite Hpx, Hpy. eauto 10.
    + rewrite Hpx, Hpy. cbn. eauto 10.
    + rewrite Hpx, Hpy, Hz. cbn [mul add]. unfold ofZ.
      split; [reflexivity|]. split; [reflexivity|].
      destruct (mathMin_Fin (inject_Z 10) (z + (qy - ly) * (-1 # 100)))
        as (r & -> & H1 & H2 & H3).
      destruct (mathMax_Fin (1 # 10) r) as (r' & -> & H1' & H2' & H3').
      exists r'. split; [reflexivity|]. change (inject_Z 10) with 10%Q in *.
      split; [exact H1'|]. destruct H3' as [E|E]; rewrite E; lra.
    + rewrite Hpx, Hpy. eauto 10.
  - cbn. eauto 10.
  - cbn [fst snd zoomIn setZoom Viewer.panX Viewer.panY Viewer.zoom].
    repeat (split; [assumption|]). rewrite Hz. cbn [mul]. unfold ofZ.
    destruct (mathMin_Fin (inject_Z 10) (z * (5 # 4))) as (r & -> & H1 & H2 & H3).
    exists r. split; [reflexivity|]. change (inject_Z 10) with 10%Q in *.
    split; [|exact H1]. destruct H3 as [E|E]; rewrite E; lra.
  - cbn [fst snd zoomOut setZoom Viewer.panX Viewer.panY Viewer.zoom].
    repeat (split; [assumption|]). rewrite Hz.
    change (Fin z / Fin (5 # 4))%num with (Fin (z * (4 # 5))).
    destruct (mathMax_Fin (1 # 10) (z * (4 # 5))) as (r & -> & H1 & H2 & H3).
    exists r. split; [reflexivity|].
    split; [exact H1|]. destruct H3 as [E|E]; rewrite E; lra.
  - cbn. repeat (split; [assumption || reflexivity|]).
    exists 1%Q. split; [reflexivity|]. lra.
  - cbn. repeat (split; [assumption || reflexivity|]).
    exists 1%Q. split; [reflexivity|]. lra.
  - destruct (selectWindow s wcStr wwStr) as [wc ww]. cbn. eauto 10.
Qed.

(** X21. Whatever the user does with pointer, zoom buttons, fit and reset,
    and whatever windows the rendered files carry, the zoom factor stays
    between 0.1 and 10 and the pan stays finite. *)
Theorem viewport_zoom_bounded (events : list ViewportEvent) :
  Forall finiteEvent events ->
  viewportOk (foldl viewportStep (initialPointer, initialViewerState) events).
Proof.
  assert (viewportOk (initialPointer, initialViewerState)) as H0.
  { unfold viewportOk. cbn. repeat (split; [reflexivity|]).
    exists 1%Q. split; [reflexivity|]. lra. }
  revert H0. generalize (initialPointer, initialViewerState).
  induction events as [|e events IH]; intros st Hst Hall; [exact Hst|].
  apply Forall_cons in Hall as [He Hall]. cbn [foldl].
  apply IH; [apply viewportStep_ok; assumption | exact Hall].
Qed.

(** *** Selection and slice navigation *)

#[local] Arguments Num.gtb : simpl never.


Lemma atIndex_Some {A} (l : list A) (index : Z) :
  is_Some (atIndex l index) <-> 0 <= index < Z.of_nat (length l).
Proof.
  unfold atIndex. destruct (Z.ltb_spec index 0).
  - split; [intros [? ?]; discriminate | lia].
  - rewrite lookup_lt_is_Some. lia.
Qed.

Lemma getSelectedSeries_set_index (index : Z) (st : AppState) :
  getSelectedSeries (setSelectedInstanceIndex index st) = getSelectedSeries st.
Proof. reflexivity. Qed.

(** X23. Scrolling with the wheel or the keys never loses the selected
    instance: when an instance is selected before, one is selected
    after. *)
Theorem navigation_keeps_selection (deltaY : number) (st : AppState) :
  is_Some (getSelectedInstance st) ->
  is_Some (getSelectedInstance (wheel deltaY st))
  /\ is_Some (getSelectedInstance (nextSlice st))
  /\ is_Some (getSelectedInstance (prevSlice st)).
Proof.
  unfold getSelectedInstance, wheel, nextSlice, prevSlice.
  destruct (getSelectedSeries st) as [series|] eqn:Es; [|intros [? ?]; discriminate].
  rewrite !getSelectedSeries_set_index, Es. cbn [Store.selectedInstanceIndex setSelectedInstanceIndex].
  rewrite !atIndex_Some. intros H.
  unfold handleWheel, onNextSlice, onPrevSlice, keyboardMaxIndex.
  destruct (deltaY >? ofZ 0)%num; lia.
Qed.

(** X24. After the grouped tree is stored and a series of it is clicked, the
    store selects that series at slice 0, and the selected instance is the
    first of its sorted instances, one of the instances of the series. *)
Theorem click_selects_first_slice (files : list ParsedDicomFile) (k s : string)
    (study : DicomStudy) (series : DicomSeries) (st : AppState) :
  groupDicomFiles files !! k = Some study ->
  Study.series study !! s = Some series ->
  nonEmpty k = true -> nonEmpty s = true ->
  let st' := handleSeriesClick series (setStudies (groupDicomFiles files) st) in
  getSelectedStudy st' = Some study
  /\ getSelectedSeries st' = Some series
  /\ Store.selectedInstanceIndex st' = 0
  /\ exists i,
       getSelectedInstance st' = Some i
       /\ head (Series.sortedInstances series) = Some i
       /\ i ∈ Series.instances series.
Proof.
  intros Hst Hse Hk Hs.
  destruct (groupDicomFiles_found files k s study series Hst Hse)
    as (_ & g & gs & Eg & Hseries).
  destruct (filesOfSeries_head files k s g gs Eg) as [Hku Hsu].
  assert (Series.studyInstanceUID series = k) as Hku' by (now rewrite Hseries).
  assert (Series.seriesInstanceUID series = s) as Hsu' by (now rewrite Hseries).
  assert (Series.instances series <> []) as Hne by (now rewrite Hseries).
  assert (Permutation (Series.instances series) (Series.sortedInstances series))
    as Hperm by (rewrite Hseries; apply (sort_perm compareInstances)).
  clear Hku Hsu. rename Hku' into Hku. rename Hsu' into Hsu.
  cbv zeta.
  assert (getSelectedStudy (handleSeriesClick series (setStudies (groupDicomFiles files) st))
          = Some study) as H1.
  { unfold getSelectedStudy. cbn. rewrite Hku, Hk. exact Hst. }
  assert (getSelectedSeries (handleSeriesClick series (setStudies (groupDicomFiles files) st))
          = Some series) as H2.
  { unfold getSelectedSeries. rewrite H1. cbn. rewrite Hsu, Hs. exact Hse. }
  split; [exact H1|]. split; [exact H2|]. split; [reflexivity|].
  unfold getSelectedInstance. rewrite H2.
  destruct (Series.sortedInstances series) as [|i rest] eqn:Esorted.
  - apply Permutation_nil_r in Hperm. contradiction.
  - exists i. unfold displayedInstances. rewrite Esorted. cbn.
    split; [reflexivity|]. split; [reflexivity|].
    rewrite Hperm. left.
Qed.

(** *** The scan *)

Section ScanFacts.

Variable readFile : string -> completion ReadResult.
Variable parseDicom : list Byte.byte -> completion DataSet.

Lemma parseOne_cases (filePath : string) :
  (exists p, parseOne readFile parseDicom filePath = ResultParsed p
             /\ Parsed.filePath p = filePath)
  \/ parseOne readFile parseDicom filePath = ResultError filePath.
Proof.
  unfold parseOne. destruct (readFile filePath) as [[[] [data|]]|]; cbn; auto.
  destruct (parseDicomFile_normal parseDicom data filePath) as [[p|] Hp];
    rewrite Hp; cbn; auto.
  left. exists p. split; [reflexivity|].
  destruct (parseDicomFile_Some _ _ _ _ Hp) as (? & ? & ? & ? & ? & _ & _ & _ & _ & _ & ->).
  reflexivity.
Qed.

Lemma parsedOf_cases (filePath : string) :
  (exists p, parseOne readFile parseDicom filePath = ResultParsed p
             /\ parsedOf readFile parseDicom filePath = Some p
             /\ Parsed.filePath p = filePath)
  \/ (parseOne readFile parseDicom filePath = ResultError filePath
      /\ parsedOf readFile parseDicom filePath = None).
Proof.
  unfold parsedOf.
  destruct (parseOne_cases filePath) as [(p & -> & Hp)| ->]; eauto.
Qed.

Lemma collect_all (paths : list string) (acc : list ParsedDicomFile * list string) :
  Forall (fun p => nonEmpty p = true) paths ->
  foldl collect acc (map (parseOne readFile parseDicom) paths) =
  ((fst acc ++ omap (parsedOf readFile parseDicom) paths)%list,
   (snd acc ++ filter (fun p => parsedOf readFile parseDicom p = None) paths)%list).
Proof.
  revert acc. induction paths as [|p paths IH]; intros acc Hall.
  - cbn. rewrite !app_nil_r. now destruct acc.
  - apply Forall_cons in Hall as [Hp Hall]. cbn [map foldl].
    rewrite IH by exact Hall. cbn [omap list_omap].
    destruct (parsedOf_cases p) as [(f & Hf & Hof & _)|[Hf Hof]]; rewrite Hf, Hof.
    + rewrite filter_cons_False by (rewrite Hof; discriminate).
      cbn. now rewrite <- app_assoc.
    + rewrite filter_cons_True by exact Hof.
      cbn. rewrite Hp. cbn. now rewrite <- app_assoc.
Qed.

Lemma scanLoop_completes (fuel : nat) (cancelled : nat -> bool) (check i : nat)
    (files : list string) (acc : list ParsedDicomFile * list string) :
  (forall k, cancelled k = false) ->
  Forall (fun p => nonEmpty p = true) files ->
  (length files - i <= fuel * BATCH_SIZE)%nat ->
  exists check',
    scanLoop readFile parseDicom fuel cancelled check i files acc =
    inl (Some (check',
               ((fst acc ++ omap (parsedOf readFile parseDicom) (drop i files))%list,
                (snd acc ++ filter (fun p => parsedOf readFile parseDicom p = None)
                             (drop i files))%list))).
Proof.
  intros Hc Hall. revert check i acc.
  induction fuel as [|fuel IH]; intros check i acc Hfuel.
  - cbn [scanLoop]. destruct (Nat.ltb_spec i (length files)); [lia|].
    rewrite drop_ge by lia. cbn. rewrite !app_nil_r. destruct acc. eauto.
  - cbn [scanLoop]. destruct (Nat.ltb_spec i (length files)).
    + rewrite Hc.
      destruct (IH (S check) (i + BATCH_SIZE)%nat
                  (foldl collect acc
                     (map (parseOne readFile parseDicom)
                        (slice i (i + BATCH_SIZE) files))))
        as (check' & ->); [unfold BATCH_SIZE in *; lia|].
      exists check'. do 3 f_equal.
      rewrite collect_all.
      2:{ unfold slice. apply Forall_take, Forall_drop, Hall. }
      cbn [fst snd]. unfold slice.
      replace (i + BATCH_SIZE - i)%nat with BATCH_SIZE by lia.
      rewrite <- !app_assoc.
      rewrite <- drop_drop.
      rewrite <- (take_drop BATCH_SIZE (drop i files)) at 5 6.
      rewrite omap_app, filter_app.
      reflexivity.
    + rewrite drop_ge by lia. cbn. rewrite !app_nil_r. destruct acc. eauto.
Qed.

(** X25. A scan that is not cancelled accounts for every file once: the
    records of the files that were read and decoded, in the order of the
    files, each under its own path; the paths of the others as errors; and
    the tree grouped from those records. *)
Theorem scanFiles_accounts (cancelled : nat -> bool) (files : list string) :
  files <> [] ->
  (forall k, cancelled k = false) ->
  Forall (fun p => nonEmpty p = true) files ->
  exists parsedFiles errors,
    scanFiles readFile parseDicom cancelled files
      = ScanCompleted parsedFiles errors (groupDicomFiles parsedFiles)
    /\ parsedFiles = omap (parsedOf readFile parseDicom) files
    /\ errors = filter (fun p => parsedOf readFile parseDicom p = None) files
    /\ map Parsed.filePath parsedFiles
       = filter (fun p => parsedOf readFile parseDicom p <> None) files
    /\ (length parsedFiles + length errors = length files)%nat.
Proof.
  intros Hne Hc Hall. unfold scanFiles.
  destruct (Nat.eqb_spec (length files) 0) as [E|_].
  { destruct files; [contradiction | discriminate E]. }
  destruct (scanLoop_completes (length files) cancelled 0 0 files ([], []) Hc Hall)
    as (check' & ->); [unfold BATCH_SIZE; lia|].
  cbn [fst snd app drop]. rewrite Hc.
  eexists _, _. split; [reflexivity|]. split; [reflexivity|]. split; [reflexivity|].
  clear Hall Hne. change (drop 0 files) with files.
  induction files as [|p files IH]; [split; reflexivity|].
  cbn [omap list_omap].
  destruct (parsedOf_cases p) as [(f & Hf & Hof & Hpath)|[Hf Hof]].
  - rewrite filter_cons_True by (rewrite Hof; discriminate).
    rewrite filter_cons_False by (rewrite Hof; discriminate).
    rewrite Hof. cbn. destruct IH as [-> IH]. rewrite Hpath. split; [reflexivity | lia].
  - rewrite filter_cons_False by (rewrite Hof; intros H; now apply H).
    rewrite filter_cons_True by exact Hof.
    rewrite Hof. cbn. destruct IH as [-> IH]. split; [reflexivity|]. lia.
Qed.

Lemma scanLoop_outcome (fuel : nat) (cancelled : nat -> bool) (check i : nat)
    (files : list string) (acc : list ParsedDicomFile * list string) :
  (length files - i <= fuel * BATCH_SIZE)%nat ->
  let remaining := ((length files - i + (BATCH_SIZE - 1)) / BATCH_SIZE)%nat in
  (scanLoop readFile parseDicom fuel cancelled check i files acc = inl None
   /\ exists k, (check <= k < check + remaining)%nat /\ cancelled k = true)
  \/ ((exists acc', scanLoop readFile parseDicom fuel cancelled check i files acc
                    = inl (Some ((check + remaining)%nat, acc')))
      /\ forall k, (check <= k < check + remaining)%nat -> cancelled k = false).
Proof.
  revert check i acc. unfold BATCH_SIZE.
  induction fuel as [|fuel IH]; intros check i acc Hfuel; cbv zeta.
  - cbn [scanLoop]. destruct (Nat.ltb_spec i (length files)); [lia|].
    replace (length files - i)%nat with 0%nat by lia. cbn.
    right. split; [rewrite Nat.add_0_r; eauto | intros; lia].
  - cbn [scanLoop]. destruct (Nat.ltb_spec i (length files)).
    + assert (Hrem : ((length files - i + (20 - 1)) / 20
                      = S ((length files - (i + 20) + (20 - 1)) / 20))%nat).
      { pose proof (Nat.div_mod_eq (length files - i + (20 - 1)) 20).
        pose proof (Nat.mod_upper_bound (length files - i + (20 - 1)) 20).
        pose proof (Nat.div_mod_eq (length files - (i + 20) + (20 - 1)) 20).
        pose proof (Nat.mod_upper_bound (length files - (i + 20) + (20 - 1)) 20).
        nia. }
      destruct (cancelled check) eqn:Hcheck.
      * left. split; [reflexivity|]. exists check. split; [lia | exact Hcheck].
      * rewrite Hrem.
        destruct (IH (S check) (i + BATCH_SIZE)%nat
                    (foldl collect acc
                       (map (parseOne readFile parseDicom)
                          (slice i (i + BATCH_SIZE) files))))
          as [(-> & k & Hk & Hck)|((acc' & ->) & Hnone)];
          [unfold BATCH_SIZE; lia| |].
        -- left. split; [reflexivity|]. exists k. unfold BATCH_SIZE in Hk.
           split; [lia | exact Hck].
        -- right. unfold BATCH_SIZE in *. split.
           ++ exists acc'. do 3 f_equal. lia.
           ++ intros k Hk. destruct (Nat.eq_dec k check) as [->|]; [exact Hcheck|].
              apply Hnone. lia.
    + replace (length files - i)%nat with 0%nat by lia. cbn.
      right. split; [rewrite Nat.add_0_r; eauto | intros; lia].
Qed.

(** X26. A scan is abandoned, and stores nothing, exactly when the
    cancellation flag is found set at one of its checks: one before each
    batch of twenty files and one after the last batch. *)
Theorem scanFiles_cancelled_iff (cancelled : nat -> bool) (files : list string) :
  scanFiles readFile parseDicom cancelled files = ScanCancelled
  <-> files <> [] /\ exists k, (k <= batchCount files)%nat /\ cancelled k = true.
Proof.
  unfold scanFiles, batchCount.
  destruct (Nat.eqb_spec (length files) 0) as [E|E].
  { split; [discriminate|]. intros [H _].
    destruct files; [contradiction | discriminate E]. }
  assert (files <> []) as Hne by (intros ->; apply E; reflexivity).
  enough (match scanLoop readFile parseDicom (length files) cancelled 0 0 files ([], []) with
          | inl (Some (check, (parsedFiles, errors))) =>
              if cancelled check then ScanCancelled
              else ScanCompleted parsedFiles errors (groupDicomFiles parsedFiles)
          | inl None => ScanCancelled
          | inr _ => ScanOutOfFuel
          end = ScanCancelled
          <-> exists k, (k <= (length files + (BATCH_SIZE - 1)) / BATCH_SIZE)%nat
                        /\ cancelled k = true) as Hmain by tauto.
  destruct (scanLoop_outcome (length files) cancelled 0 0 files ([], []))
    as [(-> & k & Hk & Hck)|((acc' & ->) & Hnone)]; [unfold BATCH_SIZE; lia| |].
  - split; [|reflexivity]. intros _. exists k.
    rewrite Nat.sub_0_r in Hk. split; [lia | exact Hck].
  - rewrite Nat.sub_0_r in *. cbn [Nat.add] in *. destruct acc' as [parsed errors].
    destruct (cancelled _) eqn:Hlast.
    + split; [|reflexivity]. intros _. eexists. split; [|exact Hlast]. lia.
    + split; [discriminate|]. intros (k & Hk & Hck).
      destruct (Nat.eq_dec k ((length files + (BATCH_SIZE - 1)) / BATCH_SIZE)%nat) as [->|].
      * congruence.
      * rewrite Hnone in Hck by lia. discriminate.
Qed.

End ScanFacts.

(** ** The further properties at the sample data *)

Lemma parseDicomFile_accepts_witness :
  exists file,
    parseDicomFile (fun _ => Normal brokenWindowDataSet) [] "a.dcm" = Normal (Some file)
    /\ Parsed.studyInstanceUID file = "1.2.3"
    /\ Parsed.seriesInstanceUID file = "1.2.3.4"
    /\ Parsed.sopInstanceUID file = "1.2.3.4.5".
Proof.
  destruct (parseDicomFile_accepts (fun _ => Normal brokenWindowDataSet) [] "a.dcm"
              "1.2.3" "1.2.3.4" "1.2.3.4.5" eq_refl eq_refl eq_refl)
    as (file & H & _ & H1 & H2 & H3 & _).
  exists file. auto.
Defined.

Lemma decoded_fields_are_usable_witness :
  notNaN (Instance.instanceNumber (Parsed.instance decodedSample))
  /\ notNaN (Instance.sliceLocation (Parsed.instance decodedSample)).
Proof.
  pose proof (decoded_fields_are_usable (fun _ => Normal brokenWindowDataSet) [] "a.dcm"
                decodedSample ltac:(vm_compute; reflexivity)) as H.
  cbv zeta in H. destruct H as (H1 & H2 & _). split; assumption.
Defined.

Lemma metadata_covers_elements_witness :
  Parsed.metadata decodedPlaceholders !! pixelDataTag = None
  /\ is_Some (Parsed.metadata decodedPlaceholders !! "x00081140").
Proof.
  pose proof (metadata_covers_elements (fun _ => Normal placeholderDataSet) [] "p.dcm"
                decodedPlaceholders placeholderDataSet
                ltac:(vm_compute; reflexivity) eq_refl) as (H1 & H2 & _).
  split; [exact H1|]. apply H2. split; [|discriminate].
  cbn. right; left.
Defined.

Lemma metadata_placeholders_witness :
  exists e,
    Parsed.metadata decodedPlaceholders !! "x00081140" = Some e
    /\ vr e = "SQ" /\ value e = TagString "[Sequence]".
Proof.
  destruct (metadata_placeholders (fun _ => Normal placeholderDataSet) [] "p.dcm"
              decodedPlaceholders placeholderDataSet "x00081140"
              {| el_vr := Some "SQ"; el_length := 100; el_dataOffset := 6 |}
              ltac:(vm_compute; reflexivity) eq_refl
              ltac:(apply (bool_decide_unpack _); vm_compute; exact I)
              ltac:(cbn; right; left)
              ltac:(discriminate)) as (e & He & Hvr & Hsq & _).
  exists e. split; [exact He|]. split; [exact Hvr|]. apply Hsq. reflexivity.
Defined.

Lemma formatTagString_shape_witness : formatTagString "x0008103e" = "(0008,103E)".
Proof. exact (proj1 (formatTagString_shape "0008" "103e" eq_refl)). Defined.

Lemma sortInstances_by_number_witness :
  neighbours (fun a b => exists n m, numberedOnly a n /\ numberedOnly b m /\ (n <= m)%Q)
             (sortInstances [numberedA; numberedB; numberedC]).
Proof.
  apply sortInstances_by_number.
  repeat (apply Forall_cons; split; [eexists; repeat split; reflexivity|]).
  apply Forall_nil_2.
Defined.

Lemma sortInstances_by_position_witness :
  neighbours (fun a b => exists z z', positionedAt a z /\ positionedAt b z'
                                      /\ (z - z' <= 1 # 1000)%Q)
             (sortInstances [farC; farA; farB]).
Proof.
  apply sortInstances_by_position.
  repeat (apply Forall_cons; split; [eexists; reflexivity|]).
  apply Forall_nil_2.
Defined.

Lemma groupDicomFiles_invariants_witness :
  Series.seriesInstanceUID sampleSeries = "series1"
  /\ Series.instances sampleSeries <> [].
Proof.
  pose proof (groupDicomFiles_invariants sampleFiles "study1" "series1"
                sampleStudy sampleSeries
                ltac:(vm_compute; reflexivity) ltac:(vm_compute; reflexivity))
    as (_ & H1 & _ & H2 & _).
  split; assumption.
Defined.

Lemma renderImage_needs_all_samples_witness :
  2 * (1 * 2) <= el_length {| el_vr := Some "OW"; el_length := 4; el_dataOffset := 0 |}.
Proof.
  apply (renderImage_needs_all_samples (fun _ => Normal (frameDataSet "40" "400"))
           initialViewerState initialViewerState framePixels (frameDataSet "40" "400")
           {| el_vr := Some "OW"; el_length := 4; el_dataOffset := 0 |} 2 1
           [230; 230; 230; 255; 0; 0; 0; 255]); vm_compute; reflexivity.
Defined.

Lemma window_drag_keeps_width_positive_witness :
  exists w',
    Viewer.windowWidth
      (dragUpdate Tool.windowLevel (Fin (-300)) (Fin 5) initialViewerState) = Fin w'
    /\ (1 <= w')%Q.
Proof.
  destruct (window_drag_keeps_width_positive (-300) 5 (inject_Z 40) (inject_Z 400)
              initialViewerState eq_refl eq_refl) as (w' & H1 & H2 & _).
  exists w'. split; assumption.
Defined.

Lemma viewport_zoom_bounded_witness :
  viewportOk
    (foldl viewportStep (initialPointer, initialViewerState)
       [ MouseDown (ofZ 0) (ofZ 0); MouseMove Tool.zoom (ofZ 0) (ofZ (-5000));
         MouseUp; ZoomIn; Rendering (Some "40\abc") None ]).
Proof.
  apply viewport_zoom_bounded.
  repeat (apply Forall_cons; split; [cbn; auto|]). apply Forall_nil_2.
Defined.


Lemma navigation_keeps_selection_witness :
  is_Some (getSelectedInstance (wheel (ofZ 1) sampleStore))
  /\ is_Some (getSelectedInstance (nextSlice sampleStore))
  /\ is_Some (getSelectedInstance (prevSlice sampleStore)).
Proof.
  apply navigation_keeps_selection.
  exists (default numberedA (getSelectedInstance sampleStore)).
  vm_compute. reflexivity.
Defined.

Lemma click_selects_first_slice_witness :
  getSelectedSeries
    (handleSeriesClick sampleSeries (setStudies (groupDicomFiles sampleFiles) sampleStore))
  = Some sampleSeries.
Proof.
  pose proof (click_selects_first_slice sampleFiles "study1" "series1"
                sampleStudy sampleSeries sampleStore
                ltac:(vm_compute; reflexivity) ltac:(vm_compute; reflexivity)
                eq_refl eq_refl) as H.
  cbv zeta in H. exact (proj1 (proj2 H)).
Defined.

Lemma scanFiles_accounts_witness :
  exists parsedFiles errors,
    scanFiles sampleReadFile (fun _ => Normal brokenWindowDataSet) (fun _ => false)
      ["a.dcm"; "bad.dcm"; "c.dcm"]
      = ScanCompleted parsedFiles errors (groupDicomFiles parsedFiles)
    /\ (length parsedFiles + length errors = 3)%nat.
Proof.
  destruct (scanFiles_accounts sampleReadFile (fun _ => Normal brokenWindowDataSet)
              (fun _ => false) ["a.dcm"; "bad.dcm"; "c.dcm"]
              ltac:(discriminate) (fun _ => eq_refl)
              ltac:(repeat (apply Forall_cons; split; [reflexivity|]); apply Forall_nil_2))
    as (parsedFiles & errors & H & _ & _ & _ & Hlen).
  exists parsedFiles, errors. split; [exact H | exact Hlen].
Defined.
